(** * A shallow embedding of [aws-python-script.py]

    The script runs a sequential HTTP load test ([load_test]), stores one
    dictionary per request in a list, and reports counts and latency
    statistics over that list ([summarize]).

    Conventions of the embedding.
    - A Python [int] is a [Z], a Python [str] a [string]; the loop counter
      [i], which starts at 0 and only grows, is a [nat].
    - A Python [float] (binary64) is represented by the rational number it
      denotes.  Comparisons of finite floats are exact under this reading;
      the results of float arithmetic (sums, products, quotients) are given
      as the exact rational, of which the script's value is the rounding.
    - The clocks and the HTTP session are the environment of the script;
      they are gathered in a [World] that [load_test] consults.
    - [load_test] is given twice: first with [session.get] as the only call
      that can raise, then ([Faults.load_test]) with the calls outside the
      [try] statement that can raise as well; the two agree when none of
      these does ([faulty_agrees]). *)

From stdpp Require Import gmap strings.
From Stdlib Require Import ZArith QArith Qround Lqa String List Lia.
From Stdlib Require Import DecimalString DecimalPos Sorted.
Import ListNotations.

Close Scope Q_scope.
Local Open Scope string_scope.
Local Open Scope list_scope.
Local Open Scope nat_scope.

(** ** Python values stored under ["status_code"] *)

Module Py.

(** The value of [row["status_code"]] is an [int] (the HTTP status) or a
    [str] (the empty string written by [load_test] when no response came). *)
Inductive value :=
| Int (n : Z)
| Str (s : string).

(** [str(v)] *)
Definition str (v : value) : string :=
  match v with
  | Int n => NilZero.string_of_int (Z.to_int n)
  | Str s => s
  end.

(** [v == w]; an [int] never equals a [str]. *)
Definition eqb (v w : value) : bool :=
  match v, w with
  | Int n, Int m => Z.eqb n m
  | Str s, Str t => String.eqb s t
  | _, _ => false
  end.

(** [v in (w1, ..., wn)] *)
Definition mem (v : value) (ws : list value) : bool := existsb (eqb v) ws.

(** Truth value of a string: [not s] holds of the empty string only. *)
Definition truthy (s : string) : bool := negb (String.eqb s "").

End Py.

(** ** Sample rows

    The dictionary appended by [load_test] at each iteration; its five keys
    are fixed, so it is a record. *)

Record Row := mkRow {
  request_num : nat;
  timestamp_utc : string;
  latency_ms : Q;
  status_code : Py.value;
  error : string
}.

(** ** The NumPy functions used by [summarize]

    [np.percentile] with its default method (linear interpolation between
    the two closest ranks of the sorted data), [np.mean], [np.max] and the
    element-wise comparison [arr > x].  Arithmetic is exact, see above. *)

Module np.

Definition ltb (x y : Q) : bool := negb (Qle_bool y x).

Fixpoint insert (x : Q) (l : list Q) : list Q :=
  match l with
  | [] => [x]
  | y :: l' => if Qle_bool x y then x :: l else y :: insert x l'
  end.

(** [np.sort(arr)]: ascending order. *)
Fixpoint sort (l : list Q) : list Q :=
  match l with
  | [] => []
  | x :: l' => insert x (sort l')
  end.

Definition sum (l : list Q) : Q := fold_right Qplus 0%Q l.

(** [np.mean(arr)], as the exact quotient; the value of the script is its
    binary64 approximation, and may differ from it in the last places. *)
Definition mean (l : list Q) : Q := (sum l / inject_Z (Z.of_nat (length l)))%Q.

Definition Qmaxb (x y : Q) : Q := if Qle_bool x y then y else x.

(** [np.max(arr)], for a non-empty array. *)
Definition max (l : list Q) : Q :=
  match l with
  | [] => 0%Q
  | x :: l' => fold_left Qmaxb l' x
  end.

(** The interpolation at virtual index [v] of sorted data [s]:
    [s[i] + g * (s[i+1] - s[i])] where [i = floor v], [g = v - i] and the
    upper index is clipped to the last position. *)
Definition interpolate (s : list Q) (v : Q) : Q :=
  let n := length s in
  let i := Z.to_nat (Qfloor v) in
  let g := (v - inject_Z (Qfloor v))%Q in
  let lo := nth i s 0%Q in
  let hi := nth (Nat.min (S i) (n - 1)) s 0%Q in
  (lo + g * (hi - lo))%Q.

(** [np.percentile(arr, q)]: virtual index [(q / 100) * (n - 1)]. *)
Definition percentile (arr : list Q) (q : Q) : Q :=
  let s := sort arr in
  interpolate s ((q / 100) * inject_Z (Z.of_nat (length s) - 1))%Q.

(** [arr > x], an array of booleans. *)
Definition gt (arr : list Q) (x : Q) : list bool := map (fun a => ltb x a) arr.

(** [np.mean] of a boolean array: the number of [True] over the length. *)
Definition mean_bool (m : list bool) : Q :=
  (inject_Z (Z.of_nat (length (List.filter (fun b => b) m)))
   / inject_Z (Z.of_nat (length m)))%Q.

End np.

(** ** [summarize] *)

(** The figures of the second half of the report, printed only when at least
    one latency was collected. *)
Record Stats := mkStats {
  mean : Q;
  p50 : Q;
  p95 : Q;
  p99 : Q;
  max : Q;
  slow_pct : Q
}.

(** What [summarize] prints: the four counts, then either the statistics or
    the line "No successful responses collected" ([statistics = None]). *)
Record Report := mkReport {
  total_requests : nat;
  successful_responses : nat;
  non_200_responses : nat;
  errors_exceptions : nat;
  statistics : option Stats
}.

(** The three list comprehensions at the head of [summarize]. *)
Definition has_latency (r : Row) : bool :=
  String.eqb (error r) "" && negb (String.eqb (Py.str (status_code r)) "").

Definition is_error (r : Row) : bool := negb (String.eqb (error r) "").

Definition is_non_200 (r : Row) : bool :=
  String.eqb (error r) ""
  && negb (Py.mem (status_code r) [Py.Str ""; Py.Int 200; Py.Str "200"]).

Definition latencies (rows : list Row) : list Q :=
  map latency_ms (List.filter has_latency rows).

Definition errors (rows : list Row) : list Row := List.filter is_error rows.

Definition non_200 (rows : list Row) : list Row := List.filter is_non_200 rows.

Definition compute_stats (arr : list Q) (slow_threshold_ms : Q) : Stats :=
  {| mean := np.mean arr;
     p50 := np.percentile arr 50;
     p95 := np.percentile arr 95;
     p99 := np.percentile arr 99;
     max := np.max arr;
     slow_pct := (np.mean_bool (np.gt arr slow_threshold_ms) * 100)%Q |}.

(** [summarize(rows, slow_threshold_ms)]: the printed report and the returned
    value ([None], or the array of latencies). *)
Definition summarize (rows : list Row) (slow_threshold_ms : Q)
  : Report * option (list Q) :=
  let lat := latencies rows in
  let counts st :=
    {| total_requests := length rows;
       successful_responses := length lat;
       non_200_responses := length (non_200 rows);
       errors_exceptions := length (errors rows);
       statistics := st |} in
  match lat with
  | [] => (counts None, None)
  | _ :: _ => (counts (Some (compute_stats lat slow_threshold_ms)), Some lat)
  end.

(** ** [load_test] *)

(** What [session.get(url, timeout=...)] does: it returns a response, raises
    a [requests.RequestException] (connection error, timeout, protocol
    error, ...), or raises an exception of another class. *)
Inductive reply :=
| Response (status : Z)
| RequestException (description : string)
| OtherException (description : string).

(** The environment of one run.  Iteration [i] of the loop (numbered from 1,
    like [i] in the script) makes one call of each kind, so each reading is
    indexed by the iteration; [time_time 0] is the reading of line 18 and
    [time_time i] the one of the [i]-th evaluation of the loop condition.
    [time.sleep] only lets the clocks advance and leaves no other trace. *)
Record World := mkWorld {
  time_time : nat -> Q;
  utcnow_isoformat : nat -> string;
  perf_counter : nat -> Q * Q;
  session_get : nat -> string -> Z -> reply
}.

(** The lines printed in the loop (lines 49-54); the two lines printed before
    the loop only repeat the arguments and are left out. *)
Inductive line :=
| line_200 (i : nat) (latency_ms : Q)
| line_error (i : nat) (latency_ms : Q) (err : string)
| line_status (i : nat) (latency_ms : Q) (status : option Z).

(** How a call of [load_test] ends. *)
Inductive outcome :=
| Returned (rows : list Row) (printed : list line)
| Raised (exn : string) (printed : list line)
| OutOfFuel.

Definition status_is_200 (status : option Z) : bool :=
  match status with
  | Some s => Z.eqb s 200
  | None => false
  end.

(** Lines 31-54 once the call of [session.get] has returned or raised a
    [RequestException]: the row that is appended and the line printed. *)
Definition record (w : World) (i : nat) (status : option Z) (err : string)
  : Row * line :=
  let ts := utcnow_isoformat w i in
  let start := fst (perf_counter w i) in
  let latency := ((snd (perf_counter w i) - start) * 1000)%Q in
  let row :=
    {| request_num := i;
       timestamp_utc := ts;
       latency_ms := latency;
       status_code := match status with
                      | Some s => Py.Int s
                      | None => Py.Str ""
                      end;
       error := err |} in
  let printed :=
    if status_is_200 status && negb (Py.truthy err) then line_200 i latency
    else if Py.truthy err then line_error i latency err
    else line_status i latency status in
  (row, printed).

(** The [while] loop; [i] is the counter before the iteration, [fuel] bounds
    the number of iterations.  Here [print] and [time.sleep] return; they
    raise in [Faults.load_test_loop] below. *)
Fixpoint load_test_loop (fuel : nat) (w : World) (url : string)
    (timeout_seconds : Z) (end_time : Q) (i : nat)
    (rows : list Row) (printed : list line) : outcome :=
  if np.ltb (time_time w (S i)) end_time then
    match fuel with
    | O => OutOfFuel
    | S fuel' =>
        let i := S i in
        let step status err :=
          let (row, out) := record w i status err in
          load_test_loop fuel' w url timeout_seconds end_time i
                         (rows ++ [row]) (printed ++ [out]) in
        match session_get w i url timeout_seconds with
        | Response status => step (Some status) ""
        | RequestException e => step None e
        | OtherException e => Raised e printed
        end
    end
  else Returned rows printed.

Definition load_test (fuel : nat) (w : World) (url : string)
    (duration_seconds timeout_seconds sleep_ms : Z) : outcome :=
  let end_time := (time_time w 0 + inject_Z duration_seconds)%Q in
  load_test_loop fuel w url timeout_seconds end_time 0 [] [].

(** ** [load_test] with the calls that can raise outside the [try]

    [load_test] above describes the runs in which [session.get] is the only
    call that raises.  Three other calls of the function can raise, and none
    of them is in the [try] statement: the conversion of an [int] to a
    [float] (line 18, [time.time() + duration_seconds], and line 57,
    [sleep_ms / 1000.0]) raises [OverflowError] beyond the range of binary64;
    [print] raises when the output cannot be written; [time.sleep] raises
    [OverflowError] for a duration beyond what the platform accepts, or when
    it is interrupted.  [Faults.load_test] is [load_test] with these.
    The sum of line 18 is exact here; in binary64 it is exact as well as long
    as the clock and the end time stay below [2^31] seconds, the clock being
    read in multiples of [2^-22] seconds there. *)

Module Faults.

Definition OverflowError : string := "OverflowError".

(** The conversion of an [int] to a [float]: it raises from
    [2^1024 - 2^970] on, which is half a unit in the last place above the
    largest binary64 number. *)
Definition float_of_int (n : Z) : option Q :=
  if (Z.abs n <? 2 ^ 1024 - 2 ^ 970)%Z then Some (inject_Z n) else None.

(** What the platform does with [print] and [time.sleep]: the exception
    raised, if any, by the [print] of iteration [i] (iteration 0 stands for
    the two lines printed before the loop), and by the call
    [time.sleep(seconds)] of iteration [i]. *)
Record Platform := mkPlatform {
  print_error : nat -> option string;
  time_sleep : nat -> Q -> option string
}.

(** Lines 56-57: the exception raised, if any. *)
Definition sleep (p : Platform) (i : nat) (sleep_ms : Z) : option string :=
  if (0 <? sleep_ms)%Z then
    match float_of_int sleep_ms with
    | Some ms => time_sleep p i (ms / 1000)%Q
    | None => Some OverflowError
    end
  else None.

Fixpoint load_test_loop (fuel : nat) (w : World) (p : Platform) (url : string)
    (timeout_seconds sleep_ms : Z) (end_time : Q) (i : nat)
    (rows : list Row) (printed : list line) : outcome :=
  if np.ltb (time_time w (S i)) end_time then
    match fuel with
    | O => OutOfFuel
    | S fuel' =>
        let i := S i in
        let step status err :=
          let (row, out) := record w i status err in
          match print_error p i with
          | Some exn => Raised exn printed
          | None =>
              match sleep p i sleep_ms with
              | Some exn => Raised exn (printed ++ [out])
              | None =>
                  load_test_loop fuel' w p url timeout_seconds sleep_ms end_time
                                 i (rows ++ [row]) (printed ++ [out])
              end
          end in
        match session_get w i url timeout_seconds with
        | Response status => step (Some status) ""
        | RequestException e => step None e
        | OtherException e => Raised e printed
        end
    end
  else Returned rows printed.

Definition load_test (fuel : nat) (w : World) (p : Platform) (url : string)
    (duration_seconds timeout_seconds sleep_ms : Z) : outcome :=
  match float_of_int duration_seconds with
  | None => Raised OverflowError []
  | Some duration =>
      let end_time := (time_time w 0 + duration)%Q in
      match print_error p 0 with
      | Some exn => Raised exn []
      | None =>
          load_test_loop fuel w p url timeout_seconds sleep_ms end_time 0 [] []
      end
  end.

(** The first [n] iterations print and sleep without raising. *)
Definition quiet (p : Platform) (sleep_ms : Z) (n : nat) : Prop :=
  forall k, 1 <= k <= n ->
    print_error p k = None /\ sleep p k sleep_ms = None.

(** The call gets as far as the loop. *)
Definition starts (p : Platform) (duration_seconds : Z) : Prop :=
  float_of_int duration_seconds <> None /\ print_error p 0 = None.

(** A platform on which [print] succeeds and [time.sleep] raises
    [OverflowError] for a duration of [2^63] nanoseconds or more, as CPython
    does where its clock counts nanoseconds in 64 bits. *)
Definition cpython : Platform :=
  {| print_error := fun _ => None;
     time_sleep := fun _ seconds =>
       if Qle_bool (inject_Z (2 ^ 63)) (seconds * inject_Z (10 ^ 9))%Q
       then Some OverflowError else None |}.

End Faults.

(** The library checks the timeout: [session.get] raises an exception that is
    not a [RequestException] when the timeout is not positive (a
    [ValueError] with the requests library). *)
Definition checks_timeout (w : World) : Prop :=
  forall i url timeout_seconds,
    (timeout_seconds <= 0)%Z ->
    exists exn, session_get w i url timeout_seconds = OtherException exn.

(** [w] with a session that checks the timeout. *)
Definition with_timeout_check (w : World) : World :=
  {| time_time := time_time w;
     utcnow_isoformat := utcnow_isoformat w;
     perf_counter := perf_counter w;
     session_get := fun i url timeout_seconds =>
       if (timeout_seconds <=? 0)%Z then OtherException "ValueError"
       else session_get w i url timeout_seconds |}.

(** ** [summarize] over the object store

    [rows] is a Python list of dictionaries: a reference to a list object
    whose items are references to dictionary objects.  To state what
    [summarize] leaves untouched, the function is given a second time over an
    explicit store: it reads the list and the dictionaries, and allocates the
    lists built by the comprehensions and the array built by [np.array]. *)

Module Heap.

Definition loc := positive.

Inductive obj :=
| Dict (r : Row)
| List (items : list loc)
| Floats (xs : list Q).

(** A computation over the store that may fail (on a dangling reference or
    an object of the wrong kind). *)
Definition M (A : Type) : Type := gmap loc obj -> option (A * gmap loc obj).

Definition ret {A} (a : A) : M A := fun h => Some (a, h).

Definition bind {A B} (m : M A) (k : A -> M B) : M B :=
  fun h => match m h with
           | Some (a, h') => k a h'
           | None => None
           end.

Notation "'let*' x ':=' m 'in' k" := (bind m (fun x => k))
  (at level 10, x pattern, m at level 100, k at level 200).

(** A new object, at an address not in use. *)
Definition alloc (o : obj) : M loc :=
  fun h => let l := fresh (dom h) in Some (l, <[l := o]> h).

Definition read_list (l : loc) : M (list loc) :=
  fun h => match h !! l with
           | Some (List items) => Some (items, h)
           | _ => None
           end.

Definition read_dict (l : loc) : M Row :=
  fun h => match h !! l with
           | Some (Dict r) => Some (r, h)
           | _ => None
           end.

(** [[item for r in rows if cond]] *)
Fixpoint comprehension {A} (cond : Row -> bool) (item : loc -> Row -> A)
    (items : list loc) : M (list A) :=
  match items with
  | [] => ret []
  | l :: items' =>
      let* r := read_dict l in
      let* rest := comprehension cond item items' in
      ret (if cond r then item l r :: rest else rest)
  end.

Definition summarize (rows : loc) (slow_threshold_ms : Q)
  : M (Report * option loc) :=
  let* items := read_list rows in
  let* lat := comprehension has_latency (fun _ r => latency_ms r) items in
  let* _ := alloc (Floats lat) in
  let* errs := comprehension is_error (fun l _ => l) items in
  let* _ := alloc (List errs) in
  let* n200 := comprehension is_non_200 (fun l _ => l) items in
  let* _ := alloc (List n200) in
  let counts st :=
    {| total_requests := length items;
       successful_responses := length lat;
       non_200_responses := length n200;
       errors_exceptions := length errs;
       statistics := st |} in
  match lat with
  | [] => ret (counts None, None)
  | _ :: _ =>
      let* arr := alloc (Floats lat) in
      ret (counts (Some (compute_stats lat slow_threshold_ms)), Some arr)
  end.

(** The store [h] holds at [rows] a list of dictionaries with contents
    [rs]. *)
Definition holds (h : gmap loc obj) (rows : loc) (rs : list Row) : Prop :=
  exists items, h !! rows = Some (List items)
                /\ Forall2 (fun l r => h !! l = Some (Dict r)) items rs.

(** A computation only adds objects to the store. *)
Definition extends {A} (m : M A) : Prop :=
  forall h a h', m h = Some (a, h') -> h ⊆ h'.

End Heap.

(** A store with a list of three dictionaries. *)
Definition sample_rows : list Row :=
  [mkRow 1 "2024-01-01T00:00:00+00:00" 600 (Py.Int 200) "";
   mkRow 2 "2024-01-01T00:00:01+00:00" 100 (Py.Str "") "refused";
   mkRow 3 "2024-01-01T00:00:02+00:00" 20 (Py.Int 404) ""].

Definition sample_store : gmap Heap.loc Heap.obj :=
  <[1%positive := Heap.List [2; 3; 4]%positive]>
    (list_to_map (zip [2; 3; 4]%positive (map Heap.Dict sample_rows))).

(** ** Runs and sample worlds *)

(** The request of iteration [k] is dispatched: the loop condition holds at
    its [k]-th evaluation.  A run dispatches [n] requests when the condition
    holds [n] times and fails at the next evaluation. *)
Definition before_deadline (w : World) (end_time : Q) (k : nat) : bool :=
  np.ltb (time_time w k) end_time.

Definition dispatches (w : World) (end_time : Q) (n : nat) : Prop :=
  (forall k, 1 <= k <= n -> before_deadline w end_time k = true)
  /\ before_deadline w end_time (S n) = false.

(** No call of [session.get] among the first [n] raises an exception that
    is not a [RequestException]. *)
Definition only_request_exceptions (w : World) (url : string)
    (timeout_seconds : Z) (n : nat) : Prop :=
  forall k e, 1 <= k <= n ->
    session_get w k url timeout_seconds <> OtherException e.

(** [status] and [err] at the end of the [try] statement. *)
Definition status_of (r : reply) : option Z :=
  match r with
  | Response s => Some s
  | _ => None
  end.

Definition err_of (r : reply) : string :=
  match r with
  | RequestException e => e
  | _ => ""
  end.

(** [end_time], line 18. *)
Definition end_time_of (w : World) (duration_seconds : Z) : Q :=
  (time_time w 0 + inject_Z duration_seconds)%Q.

(** The row appended and the line printed by iteration [i], when its call of
    [session.get] does not raise an exception of another class. *)
Definition row_at (w : World) (url : string) (timeout_seconds : Z) (i : nat) : Row :=
  let r := session_get w i url timeout_seconds in
  fst (record w i (status_of r) (err_of r)).

Definition line_at (w : World) (url : string) (timeout_seconds : Z) (i : nat) : line :=
  let r := session_get w i url timeout_seconds in
  snd (record w i (status_of r) (err_of r)).

(** A world with a scripted server: the clock reads [k] seconds at its
    [k]-th reading, and request [i] gets the [i]-th scripted reply after the
    scripted number of seconds. *)
Definition scripted (exchanges : list (reply * Q)) : World :=
  {| time_time := fun k => inject_Z (Z.of_nat k);
     utcnow_isoformat := fun _ => "2024-01-01T00:00:00+00:00";
     perf_counter := fun i => (0%Q, snd (nth (i - 1) exchanges (Response 200, 0%Q)));
     session_get := fun i _ _ => fst (nth (i - 1) exchanges (Response 200, 0%Q)) |}.

(** Three requests: a 200, a refused connection, a 404; with a duration of
    4 seconds the loop runs three times. *)
Definition sample_world : World :=
  scripted [(Response 200, (3 # 5)%Q);
            (RequestException "refused", (1 # 10)%Q);
            (Response 404, (1 # 50)%Q)].

(** The [n] iterations after the [i]-th are made, and nothing but a
    [RequestException] is raised in them. *)
Definition smooth (w : World) (p : Faults.Platform) (url : string)
    (timeout_seconds sleep_ms : Z) (end_time : Q) (i n : nat) : Prop :=
  forall k, i < k <= i + n ->
    before_deadline w end_time k = true
    /\ (forall e, session_get w k url timeout_seconds <> OtherException e)
    /\ Faults.print_error p k = None
    /\ Faults.sleep p k sleep_ms = None.

(** The rows of a returned run. *)
Definition rows_of (o : outcome) : list Row :=
  match o with
  | Returned rows _ => rows
  | _ => []
  end.

(** ** Quantities named by the specification *)

(** The slow-request ratio as the specification words it: the fraction, as a
    percentage, of all samples whose latency exceeds the threshold. *)
Definition slow_pct_of_all_samples (rows : list Row) (slow_threshold_ms : Q) : Q :=
  (inject_Z (Z.of_nat (length (List.filter
      (fun r => np.ltb slow_threshold_ms (latency_ms r)) rows)))
   / inject_Z (Z.of_nat (length rows)) * 100)%Q.

(** The classification of the specification: a status in 200-299 is a
    success, any other status a non-success. *)
Definition is_2xx (status : Z) : bool := (200 <=? status)%Z && (status <=? 299)%Z.

(** Rows that enter none of the three counts of [summarize]. *)
Definition is_blank (r : Row) : bool :=
  String.eqb (error r) "" && String.eqb (Py.str (status_code r)) "".

(** ** [str.replace] and the names of the figures *)

Module Str.

(** [old in s] *)
Fixpoint contains (old s : string) : bool :=
  String.prefix old s
  || match s with
     | EmptyString => false
     | String _ s' => contains old s'
     end.

(** [s.replace(old, new)] for a non-empty [old]: the occurrences of [old] are
    replaced from left to right, and the search resumes after each replaced
    occurrence; [skip] counts the characters of that occurrence still to
    pass over. *)
Fixpoint replace_from (old new : string) (skip : nat) (s : string) : string :=
  match s with
  | EmptyString => EmptyString
  | String c s' =>
      match skip with
      | S k => replace_from old new k s'
      | O =>
          if String.prefix old s
          then String.append new (replace_from old new (String.length old - 1) s')
          else String c (replace_from old new 0 s')
      end
  end.

(** With an empty [old], [new] is put before each character and at the
    end. *)
Fixpoint interleave (new s : string) : string :=
  match s with
  | EmptyString => new
  | String c s' => String.append new (String c (interleave new s'))
  end.

Definition replace (old new s : string) : string :=
  match old with
  | EmptyString => interleave new s
  | String _ _ => replace_from old new 0 s
  end.

(** The number of occurrences that [replace_from] replaces. *)
Fixpoint count_from (old : string) (skip : nat) (s : string) : nat :=
  match s with
  | EmptyString => 0
  | String c s' =>
      match skip with
      | S k => count_from old k s'
      | O =>
          if String.prefix old s
          then S (count_from old (String.length old - 1) s')
          else count_from old 0 s'
      end
  end.

End Str.

(** ** [write_csv], [plot] and [main]

    What these functions leave behind: files, and figures shown on screen.
    A file is given by what was written to it, not by its bytes. *)

Inductive figure :=
| Histogram (data : list Q) (bins : nat)
| Scatter (xs : list nat) (ys : list Q).

Inductive file :=
| Csv (fieldnames : list string) (records : list Row)
| Picture (fig : figure).

Record Env := mkEnv {
  files : gmap string file;
  shown : list figure
}.


(** [plt.savefig(path, ...)] and [plt.show()] for the current figure;
    [savefig] is taken to succeed and to write the file named [path]. *)
Definition savefig (path : string) (fig : figure) (e : Env) : Env :=
  {| files := <[path := Picture fig]> (files e); shown := shown e |}.

Definition show (fig : figure) (e : Env) : Env :=
  {| files := files e; shown := shown e ++ [fig] |}.

(** [if out_png:], for [out_png] a string or [None]. *)
Definition given (out_png : option string) : option string :=
  match out_png with
  | Some path => if Py.truthy path then Some path else None
  | None => None
  end.

Definition hist_path (out_png : string) : string :=
  Str.replace ".png" "_hist.png" out_png.

Definition scatter_path (out_png : string) : string :=
  Str.replace ".png" "_scatter.png" out_png.

(** [plot(arr, out_png)] *)
Definition plot (arr : list Q) (out_png : option string) (e : Env) : Env :=
  let hist := Histogram arr 50 in
  let e1 :=
    match given out_png with
    | Some path => savefig (hist_path path) hist e
    | None => show hist e
    end in
  let scatter := Scatter (seq 0 (length arr)) arr in
  match given out_png with
  | Some path => savefig (scatter_path path) scatter e1
  | None => show scatter e1
  end.





(** ** Further quantities used in the statements *)

(** The line of lines 49-54, read off the row that was appended. *)
Definition line_of_row (r : Row) : line :=
  if Py.truthy (error r) then line_error (request_num r) (latency_ms r) (error r)
  else match status_code r with
       | Py.Int s =>
           if (s =? 200)%Z then line_200 (request_num r) (latency_ms r)
           else line_status (request_num r) (latency_ms r) (Some s)
       | Py.Str _ => line_status (request_num r) (latency_ms r) None
       end.

(** Rows with a status 200 (as a number or as text) and no error. *)
Definition is_200 (r : Row) : bool :=
  String.eqb (error r) ""
  && Py.mem (status_code r) [Py.Int 200; Py.Str "200"].

(** The kinds of reply, as tests on the request number. *)
Definition responded (w : World) (url : string) (timeout_seconds : Z) (k : nat) : bool :=
  match session_get w k url timeout_seconds with
  | Response _ => true
  | _ => false
  end.

Definition responded_other_than_200 (w : World) (url : string)
    (timeout_seconds : Z) (k : nat) : bool :=
  match session_get w k url timeout_seconds with
  | Response s => negb (s =? 200)%Z
  | _ => false
  end.

Definition failed_with_text (w : World) (url : string) (timeout_seconds : Z)
    (k : nat) : bool :=
  match session_get w k url timeout_seconds with
  | RequestException e => Py.truthy e
  | _ => false
  end.

(** * Properties *)

(** ** Python values *)

Lemma string_of_uint_nonempty d :
  d <> Decimal.Nil -> NilZero.string_of_uint d <> "".
Proof. destruct d; simpl; congruence. Qed.

Lemma str_Int_nonempty n : Py.str (Py.Int n) <> "".
Proof.
  unfold Py.str. destruct n as [|p|p]; simpl.
  - discriminate.
  - apply string_of_uint_nonempty, DecimalPos.Unsigned.to_uint_nonnil.
  - discriminate.
Qed.

Lemma str_Int_eqb n : String.eqb (Py.str (Py.Int n)) "" = false.
Proof. apply String.eqb_neq, str_Int_nonempty. Qed.

(** ** The three counts of [summarize] *)

Section Counts.

Variable rows : list Row.

Let count (p : Row -> bool) : nat := length (List.filter p rows).

(** Each row is an error, has a latency, or is blank, and only one of
    the three. *)
Lemma row_trichotomy r :
  (if is_error r then 1 else 0) + (if has_latency r then 1 else 0)
  + (if is_blank r then 1 else 0) = 1.
Proof.
  unfold is_error, has_latency, is_blank.
  destruct (String.eqb (error r) ""), (String.eqb (Py.str (status_code r)) "");
    reflexivity.
Qed.

Lemma non_200_has_latency r : is_non_200 r = true -> has_latency r = true.
Proof.
  unfold is_non_200, has_latency, Py.mem.
  destruct (String.eqb (error r) ""); simpl; [|discriminate].
  destruct (status_code r) as [n|s].
  - intros _. now rewrite str_Int_eqb.
  - simpl. destruct (String.eqb s ""); simpl; [discriminate|reflexivity].
Qed.

Lemma count_latencies : length (latencies rows) = count has_latency.
Proof. unfold latencies. apply length_map. Qed.

End Counts.

Lemma count_partition (rows : list Row) :
  length rows
  = length (List.filter has_latency rows) + length (List.filter is_error rows)
    + length (List.filter is_blank rows).
Proof.
  induction rows as [|r rows IH]; simpl; [reflexivity|].
  pose proof (row_trichotomy r) as T.
  destruct (is_error r), (has_latency r), (is_blank r); simpl in *; lia.
Qed.

Lemma count_non_200_le (rows : list Row) :
  length (List.filter is_non_200 rows) <= length (List.filter has_latency rows).
Proof.
  induction rows as [|r rows IH]; simpl; [lia|].
  pose proof (non_200_has_latency r) as N.
  destruct (is_non_200 r), (has_latency r); simpl; try lia.
  all: discriminate N; reflexivity.
Qed.

Lemma summarize_report rows thr :
  let rep := fst (summarize rows thr) in
  total_requests rep = length rows
  /\ successful_responses rep = length (List.filter has_latency rows)
  /\ non_200_responses rep = length (List.filter is_non_200 rows)
  /\ errors_exceptions rep = length (List.filter is_error rows).
Proof.
  unfold summarize. rewrite <- count_latencies.
  destruct (latencies rows); simpl; repeat split; reflexivity.
Qed.

(** ** The loop of [load_test] *)

Section Loop.

Variables (w : World) (url : string) (timeout_seconds : Z) (end_time : Q).

Let loop fuel := load_test_loop fuel w url timeout_seconds end_time.
Let reply_at k := session_get w k url timeout_seconds.

(** One iteration, when the request is dispatched and does not raise an
    exception of another class. *)
Lemma load_test_loop_step fuel i rows printed :
  before_deadline w end_time (S i) = true ->
  (forall e, reply_at (S i) <> OtherException e) ->
  loop (S fuel) i rows printed
  = loop fuel (S i) (rows ++ [row_at w url timeout_seconds (S i)])
         (printed ++ [line_at w url timeout_seconds (S i)]).
Proof.
  unfold loop, reply_at, before_deadline, row_at, line_at.
  intros Hb Hr. simpl. rewrite Hb.
  destruct (session_get w (S i) url timeout_seconds) as [s|e|e] eqn:E.
  - simpl status_of. simpl err_of. now destruct (record w (S i) (Some s) "").
  - simpl status_of. simpl err_of. now destruct (record w (S i) None e).
  - now destruct (Hr e).
Qed.

Lemma load_test_loop_stop fuel i rows printed :
  before_deadline w end_time (S i) = false ->
  loop fuel i rows printed = Returned rows printed.
Proof.
  unfold loop, before_deadline. intros Hb.
  destruct fuel; simpl; now rewrite Hb.
Qed.

(** A run of [n] further iterations from counter [i]. *)
Lemma load_test_loop_run n : forall fuel i rows printed,
  (forall k, i < k <= i + n -> before_deadline w end_time k = true) ->
  before_deadline w end_time (S (i + n)) = false ->
  (forall k e, i < k <= i + n -> reply_at k <> OtherException e) ->
  n <= fuel ->
  loop fuel i rows printed
  = Returned (rows ++ map (row_at w url timeout_seconds) (seq (S i) n))
             (printed ++ map (line_at w url timeout_seconds) (seq (S i) n)).
Proof.
  induction n as [|n IH]; intros fuel i rows printed Hb He Hr Hf.
  - simpl. rewrite !app_nil_r. apply load_test_loop_stop.
    now rewrite Nat.add_0_r in He.
  - destruct fuel as [|fuel]; [lia|].
    rewrite load_test_loop_step.
    + rewrite IH.
      * simpl. now rewrite <- !app_assoc.
      * intros k Hk. apply Hb. lia.
      * now replace (S (S i + n)) with (S (i + S n)) by lia.
      * intros k e Hk. apply Hr. lia.
      * lia.
    + apply Hb. lia.
    + intros e. apply Hr. lia.
Qed.

(** Conversely, a call that returns has run such iterations. *)
Lemma load_test_loop_returned fuel : forall i rows printed rows' printed',
  loop fuel i rows printed = Returned rows' printed' ->
  exists n,
    (forall k, i < k <= i + n -> before_deadline w end_time k = true)
    /\ before_deadline w end_time (S (i + n)) = false
    /\ (forall k e, i < k <= i + n -> reply_at k <> OtherException e)
    /\ n <= fuel
    /\ rows' = rows ++ map (row_at w url timeout_seconds) (seq (S i) n)
    /\ printed' = printed ++ map (line_at w url timeout_seconds) (seq (S i) n).
Proof.
  induction fuel as [|fuel IH]; intros i rows printed rows' printed' H.
  - unfold loop in H. simpl in H.
    fold (before_deadline w end_time (S i)) in H.
    destruct (before_deadline w end_time (S i)) eqn:Hb; [discriminate|].
    injection H as <- <-. exists 0. rewrite Nat.add_0_r. simpl.
    rewrite !app_nil_r. repeat split; auto; intros; lia.
  - destruct (before_deadline w end_time (S i)) eqn:Hb.
    + assert (Hr : forall e, reply_at (S i) <> OtherException e).
      { intros e E. unfold loop in H. simpl in H.
        fold (before_deadline w end_time (S i)) in H. rewrite Hb in H.
        unfold reply_at in E. now rewrite E in H. }
      rewrite load_test_loop_step in H by assumption.
      apply IH in H as (n & Hn & He & Hx & Hf & -> & ->).
      exists (S n). simpl. rewrite <- !app_assoc. simpl.
      repeat split; auto.
      * intros k Hk. destruct (Nat.eq_dec k (S i)) as [->|]; [assumption|].
        apply Hn. lia.
      * now replace (S (i + S n)) with (S (S i + n)) by lia.
      * intros k e Hk. destruct (Nat.eq_dec k (S i)) as [->|]; [apply Hr|].
        apply Hx. lia.
      * lia.
    + rewrite load_test_loop_stop in H by assumption.
      injection H as <- <-. exists 0. rewrite Nat.add_0_r. simpl.
      rewrite !app_nil_r. repeat split; auto; intros; lia.
Qed.

End Loop.

(** ** Runs of [load_test] *)

Section Runs.

Variables (w : World) (url : string).
Variables (duration_seconds timeout_seconds sleep_ms : Z).

Let run fuel := load_test fuel w url duration_seconds timeout_seconds sleep_ms.
Let row_of := row_at w url timeout_seconds.
Let line_of := line_at w url timeout_seconds.

(** A run that dispatches [n] requests returns their [n] rows. *)
Lemma load_test_run n fuel :
  dispatches w (end_time_of w duration_seconds) n ->
  only_request_exceptions w url timeout_seconds n ->
  n <= fuel ->
  run fuel = Returned (map row_of (seq 1 n)) (map line_of (seq 1 n)).
Proof.
  intros [Hb He] Hr Hf. unfold run, load_test.
  fold (end_time_of w duration_seconds).
  now rewrite (load_test_loop_run w url timeout_seconds _ n).
Qed.

(** Every call that returns is such a run. *)
Lemma load_test_returned fuel rows printed :
  run fuel = Returned rows printed ->
  exists n,
    dispatches w (end_time_of w duration_seconds) n
    /\ only_request_exceptions w url timeout_seconds n
    /\ n <= fuel
    /\ rows = map row_of (seq 1 n)
    /\ printed = map line_of (seq 1 n).
Proof.
  unfold run, load_test. fold (end_time_of w duration_seconds). intros H.
  apply load_test_loop_returned in H as (n & Hb & He & Hr & Hf & -> & ->).
  now exists n.
Qed.

Lemma request_num_row_of i : request_num (row_of i) = i.
Proof. reflexivity. Qed.

Lemma map_request_num_rows n k :
  map request_num (map row_of (seq k n)) = seq k n.
Proof. rewrite map_map. apply map_id. Qed.

Lemma nth_error_rows n j :
  j < n -> nth_error (map row_of (seq 1 n)) j = Some (row_of (S j)).
Proof.
  intros Hj. rewrite nth_error_map, nth_error_seq.
  destruct (Nat.ltb_spec j n); [reflexivity|lia].
Qed.

Lemma nth_error_lines n j :
  j < n -> nth_error (map line_of (seq 1 n)) j = Some (line_of (S j)).
Proof.
  intros Hj. rewrite nth_error_map, nth_error_seq.
  destruct (Nat.ltb_spec j n); [reflexivity|lia].
Qed.

Lemma nth_error_rows_inv n j r :
  nth_error (map row_of (seq 1 n)) j = Some r -> j < n /\ r = row_of (S j).
Proof.
  intros H. assert (Hj : j < n).
  { assert (N : nth_error (map row_of (seq 1 n)) j <> None) by congruence.
    apply nth_error_Some in N. now rewrite length_map, length_seq in N. }
  rewrite nth_error_rows in H by assumption. split; congruence.
Qed.

(** The fields of a row, by the reply of its request. *)
Lemma row_of_response i s :
  session_get w i url timeout_seconds = Response s ->
  status_code (row_of i) = Py.Int s /\ error (row_of i) = "".
Proof. unfold row_of, row_at. intros ->. split; reflexivity. Qed.

Lemma row_of_exception i e :
  session_get w i url timeout_seconds = RequestException e ->
  status_code (row_of i) = Py.Str "" /\ error (row_of i) = e.
Proof. unfold row_of, row_at. intros ->. split; reflexivity. Qed.

End Runs.

(** Closes a goal quantified over an index [k] bounded by a literal. *)
Ltac bounded_cases k :=
  first [ lia
        | destruct k as [|k];
          [ first [lia | reflexivity | (simpl; discriminate)]
          | bounded_cases k ] ].

(** ** Runs of [Faults.load_test] *)

Section FaultyLoop.

Variables (w : World) (p : Faults.Platform) (url : string).
Variables (timeout_seconds sleep_ms : Z) (end_time : Q).

Let loop fuel :=
  Faults.load_test_loop fuel w p url timeout_seconds sleep_ms end_time.
Let row_of := row_at w url timeout_seconds.
Let line_of := line_at w url timeout_seconds.

(** One iteration, with all its ways to end. *)
Lemma faulty_loop_unfold fuel i rows printed :
  loop (S fuel) i rows printed
  = if before_deadline w end_time (S i) then
      match session_get w (S i) url timeout_seconds with
      | OtherException e => Raised e printed
      | _ =>
          match Faults.print_error p (S i) with
          | Some exn => Raised exn printed
          | None =>
              match Faults.sleep p (S i) sleep_ms with
              | Some exn => Raised exn (printed ++ [line_of (S i)])
              | None => loop fuel (S i) (rows ++ [row_of (S i)])
                             (printed ++ [line_of (S i)])
              end
          end
      end
    else Returned rows printed.
Proof.
  unfold loop, row_of, line_of, row_at, line_at, before_deadline.
  cbn [Faults.load_test_loop].
  destruct (np.ltb (time_time w (S i)) end_time); [|reflexivity].
  destruct (session_get w (S i) url timeout_seconds) as [s|e|e];
    [| |reflexivity]; simpl status_of; simpl err_of.
  - reflexivity.
  - reflexivity.
Qed.

Lemma faulty_loop_stop fuel i rows printed :
  before_deadline w end_time (S i) = false ->
  loop fuel i rows printed = Returned rows printed.
Proof.
  intros Hb. destruct fuel.
  - unfold loop. simpl. fold (before_deadline w end_time (S i)). now rewrite Hb.
  - rewrite faulty_loop_unfold. now rewrite Hb.
Qed.

Let ok := smooth w p url timeout_seconds sleep_ms end_time.

Lemma faulty_loop_step fuel i rows printed :
  ok i 1 ->
  loop (S fuel) i rows printed
  = loop fuel (S i) (rows ++ [row_of (S i)]) (printed ++ [line_of (S i)]).
Proof.
  intros H. destruct (H (S i)) as (Hb & Hr & Hp & Hs); [lia|].
  rewrite faulty_loop_unfold, Hb, Hp, Hs.
  destruct (session_get w (S i) url timeout_seconds) as [s|e|e];
    try reflexivity. now destruct (Hr e).
Qed.

Lemma faulty_loop_prefix n : forall fuel i rows printed,
  ok i n ->
  loop (n + fuel) i rows printed
  = loop fuel (i + n) (rows ++ map row_of (seq (S i) n))
         (printed ++ map line_of (seq (S i) n)).
Proof.
  induction n as [|n IH]; intros fuel i rows printed H.
  - simpl. now rewrite Nat.add_0_r, !app_nil_r.
  - change (S n + fuel) with (S (n + fuel)).
    rewrite faulty_loop_step by (unfold ok, smooth; intros k Hk; apply H; lia).
    rewrite IH by (unfold ok, smooth; intros k Hk; apply H; lia).
    simpl. rewrite <- !app_assoc. simpl.
    now replace (i + S n) with (S (i + n)) by lia.
Qed.

Lemma faulty_loop_run n fuel i rows printed :
  ok i n ->
  before_deadline w end_time (S (i + n)) = false ->
  n <= fuel ->
  loop fuel i rows printed
  = Returned (rows ++ map row_of (seq (S i) n))
             (printed ++ map line_of (seq (S i) n)).
Proof.
  intros H He Hf. replace fuel with (n + (fuel - n)) by lia.
  rewrite faulty_loop_prefix by assumption. now apply faulty_loop_stop.
Qed.

Lemma faulty_loop_returned fuel : forall i rows printed rows' printed',
  loop fuel i rows printed = Returned rows' printed' ->
  exists n,
    ok i n
    /\ before_deadline w end_time (S (i + n)) = false
    /\ n <= fuel
    /\ rows' = rows ++ map row_of (seq (S i) n)
    /\ printed' = printed ++ map line_of (seq (S i) n).
Proof.
  assert (Hstop : forall fuel i rows printed rows' printed',
             before_deadline w end_time (S i) = false ->
             loop fuel i rows printed = Returned rows' printed' ->
             exists n,
               ok i n
               /\ before_deadline w end_time (S (i + n)) = false
               /\ n <= fuel
               /\ rows' = rows ++ map row_of (seq (S i) n)
               /\ printed' = printed ++ map line_of (seq (S i) n)).
  { intros f i rows printed rows' printed' Hb H.
    rewrite faulty_loop_stop in H by assumption. injection H as <- <-.
    exists 0. rewrite Nat.add_0_r. simpl. rewrite !app_nil_r.
    split; [intros k Hk; lia|]. repeat split; [assumption|lia]. }
  induction fuel as [|fuel IH]; intros i rows printed rows' printed' H.
  - destruct (before_deadline w end_time (S i)) eqn:Hb; [|now apply Hstop].
    unfold loop in H. simpl in H.
    fold (before_deadline w end_time (S i)) in H. rewrite Hb in H.
    discriminate.
  - destruct (before_deadline w end_time (S i)) eqn:Hb; [|now apply Hstop].
    rewrite faulty_loop_unfold, Hb in H.
    assert (Hok : (forall e, session_get w (S i) url timeout_seconds
                             <> OtherException e)
                  /\ Faults.print_error p (S i) = None
                  /\ Faults.sleep p (S i) sleep_ms = None
                  /\ loop fuel (S i) (rows ++ [row_of (S i)])
                           (printed ++ [line_of (S i)])
                     = Returned rows' printed').
    { destruct (session_get w (S i) url timeout_seconds) as [s|e|e];
        [| |discriminate];
        (destruct (Faults.print_error p (S i)); [discriminate|]);
        (destruct (Faults.sleep p (S i) sleep_ms); [discriminate|]);
        repeat split; auto; discriminate. }
    destruct Hok as (Hr & Hp & Hs & H').
    apply IH in H' as (n & Hn & He & Hf & -> & ->).
    exists (S n). simpl. rewrite <- !app_assoc. simpl.
    split; [|repeat split].
    + intros k Hk. destruct (Nat.eq_dec k (S i)) as [->|]; [now auto|].
      apply Hn. lia.
    + now replace (S (i + S n)) with (S (S i + n)) by lia.
    + lia.
Qed.

End FaultyLoop.

Section FaultyRuns.

Variables (w : World) (p : Faults.Platform) (url : string).
Variables (duration_seconds timeout_seconds sleep_ms : Z).

Let run fuel :=
  Faults.load_test fuel w p url duration_seconds timeout_seconds sleep_ms.
Let row_of := row_at w url timeout_seconds.
Let line_of := line_at w url timeout_seconds.

Lemma float_of_int_value n q : Faults.float_of_int n = Some q -> q = inject_Z n.
Proof.
  unfold Faults.float_of_int.
  destruct (Z.abs n <? 2 ^ 1024 - 2 ^ 970)%Z; congruence.
Qed.

(** The call, once it has got as far as the loop. *)
Lemma faulty_start fuel :
  Faults.starts p duration_seconds ->
  run fuel
  = Faults.load_test_loop fuel w p url timeout_seconds sleep_ms
      (end_time_of w duration_seconds) 0 [] [].
Proof.
  intros [Hd Hp]. unfold run, Faults.load_test.
  destruct (Faults.float_of_int duration_seconds) as [q|] eqn:E; [|congruence].
  apply float_of_int_value in E as ->. now rewrite Hp.
Qed.

Lemma smooth_of_run n :
  dispatches w (end_time_of w duration_seconds) n ->
  only_request_exceptions w url timeout_seconds n ->
  Faults.quiet p sleep_ms n ->
  smooth w p url timeout_seconds sleep_ms (end_time_of w duration_seconds) 0 n.
Proof.
  intros [Hb _] Hr Hq k Hk. destruct (Hq k) as [Hp Hs]; [lia|].
  split; [apply Hb; lia|]. split; [intros e; apply Hr; lia|]. now split.
Qed.

Lemma faulty_run n fuel :
  Faults.starts p duration_seconds ->
  dispatches w (end_time_of w duration_seconds) n ->
  only_request_exceptions w url timeout_seconds n ->
  Faults.quiet p sleep_ms n ->
  n <= fuel ->
  run fuel = Returned (map row_of (seq 1 n)) (map line_of (seq 1 n)).
Proof.
  intros Hs Hd Hr Hq Hf. rewrite faulty_start by assumption.
  rewrite (faulty_loop_run w p url timeout_seconds sleep_ms _ n); auto.
  - now apply smooth_of_run.
  - apply Hd.
Qed.

Lemma faulty_returned fuel rows printed :
  run fuel = Returned rows printed ->
  exists n,
    Faults.starts p duration_seconds
    /\ dispatches w (end_time_of w duration_seconds) n
    /\ only_request_exceptions w url timeout_seconds n
    /\ Faults.quiet p sleep_ms n
    /\ n <= fuel
    /\ rows = map row_of (seq 1 n)
    /\ printed = map line_of (seq 1 n).
Proof.
  intros H.
  assert (Hs : Faults.starts p duration_seconds).
  { unfold run, Faults.load_test in H. split.
    - destruct (Faults.float_of_int duration_seconds); [discriminate|].
      discriminate H.
    - destruct (Faults.float_of_int duration_seconds); [|discriminate H].
      destruct (Faults.print_error p 0); [discriminate H|reflexivity]. }
  rewrite faulty_start in H by assumption.
  apply faulty_loop_returned in H as (n & Hn & He & Hf & -> & ->).
  exists n. split; [exact Hs|]. split; [split|].
  - intros k Hk. apply Hn. lia.
  - exact He.
  - split; [|split; [|now repeat split]].
    + intros k e Hk. destruct (Hn k) as (_ & Hr & _); [lia|]. apply Hr.
    + intros k Hk. destruct (Hn k) as (_ & _ & Hp & Hq); [lia|]. now split.
Qed.

(** When nothing outside the [try] raises, the call is the call of
    [load_test]. *)
Lemma faulty_loop_agrees fuel : forall end_time i rows printed,
  (forall k, Faults.print_error p k = None) ->
  (forall k, Faults.sleep p k sleep_ms = None) ->
  Faults.load_test_loop fuel w p url timeout_seconds sleep_ms end_time
                        i rows printed
  = load_test_loop fuel w url timeout_seconds end_time i rows printed.
Proof.
  induction fuel as [|fuel IH]; intros end_time i rows printed Hp Hs;
    [reflexivity|].
  cbn [Faults.load_test_loop load_test_loop].
  destruct (np.ltb (time_time w (S i)) end_time); [|reflexivity].
  destruct (session_get w (S i) url timeout_seconds) as [s|e|e];
    [| |reflexivity].
  - destruct (record w (S i) (Some s) ""). rewrite Hp, Hs. now apply IH.
  - destruct (record w (S i) None e). rewrite Hp, Hs. now apply IH.
Qed.

Lemma faulty_agrees fuel :
  Faults.float_of_int duration_seconds <> None ->
  (forall k, Faults.print_error p k = None) ->
  (forall k, Faults.sleep p k sleep_ms = None) ->
  run fuel = load_test fuel w url duration_seconds timeout_seconds sleep_ms.
Proof.
  intros Hd Hp Hs. rewrite faulty_start by (split; auto).
  unfold load_test. fold (end_time_of w duration_seconds).
  now apply faulty_loop_agrees.
Qed.

End FaultyRuns.

(** C3 (as the script behaves). Every call of [load_test] that returns has
    produced exactly one row per dispatched request, and the [request_num]
    of the rows are 1, 2, ..., total in this order (so without duplicate or
    gap).  The call does return, with [n] rows, in a run that dispatches [n]
    requests and in which nothing but [RequestException] is raised: no other
    exception by [session.get], none by [print] or [time.sleep], and the
    duration fits a [float]. *)
Theorem request_nums_of_returned_rows
    (w : World) (p : Faults.Platform) (url : string)
    (duration_seconds timeout_seconds sleep_ms : Z) (fuel : nat) :
  (forall rows printed,
      Faults.load_test fuel w p url duration_seconds timeout_seconds sleep_ms
      = Returned rows printed ->
      dispatches w (end_time_of w duration_seconds) (length rows)
      /\ map request_num rows = seq 1 (length rows))
  /\ (forall n,
        Faults.starts p duration_seconds ->
        dispatches w (end_time_of w duration_seconds) n ->
        only_request_exceptions w url timeout_seconds n ->
        Faults.quiet p sleep_ms n ->
        n <= fuel ->
        exists rows printed,
          Faults.load_test fuel w p url duration_seconds timeout_seconds sleep_ms
          = Returned rows printed
          /\ length rows = n).
Proof.
  split.
  - intros rows printed H.
    apply faulty_returned in H as (n & _ & Hd & _ & _ & _ & -> & _).
    rewrite length_map, length_seq. split; [exact Hd|].
    apply map_request_num_rows.
  - intros n Hs Hd Hx Hq Hf.
    eexists _, _. split; [now apply faulty_run with (n := n)|].
    now rewrite length_map, length_seq.
Qed.

Lemma request_nums_of_returned_rows_witness :
  (exists rows printed,
      Faults.load_test 5 sample_world Faults.cpython "http://h:8080/albums" 4 10 250
      = Returned rows printed
      /\ length rows = 3)
  /\ map request_num
       (rows_of (Faults.load_test 5 sample_world Faults.cpython
                   "http://h:8080/albums" 4 10 250))
     = seq 1 3.
Proof.
  destruct (request_nums_of_returned_rows sample_world Faults.cpython
              "http://h:8080/albums" 4 10 250 5) as [Hnums Hruns].
  split.
  - apply (Hruns 3).
    + split; [discriminate|reflexivity].
    + split; [intros k Hk; bounded_cases k | reflexivity].
    + intros k e Hk. bounded_cases k.
    + intros k Hk. split; reflexivity.
    + lia.
  - refine (proj2 (Hnums _ _ _)). reflexivity.
Defined.

(** C3, counterexample: a run whose second request is interrupted.  Two
    requests are dispatched, and the call returns no row, whatever the number
    of iterations allowed: it ends with the exception. *)
Lemma interrupted_run_returns_no_row :
  let w := scripted [(Response 200, (1 # 50)%Q);
                     (OtherException "KeyboardInterrupt", 0%Q)] in
  before_deadline w (end_time_of w 4) 1 = true
  /\ before_deadline w (end_time_of w 4) 2 = true
  /\ Faults.load_test 2 w Faults.cpython "http://h:8080/albums" 4 10 0
     = Raised "KeyboardInterrupt" [line_200 1 (1000 # 50)]
  /\ forall fuel rows printed,
       Faults.load_test fuel w Faults.cpython "http://h:8080/albums" 4 10 0
       <> Returned rows printed.
Proof.
  cbv zeta. repeat split.
  intros fuel rows printed H.
  apply faulty_returned in H as (n & _ & [Hb He] & Hx & _).
  assert (Hn : 2 <= n).
  { destruct n as [|[|n]]; [discriminate He|discriminate He|lia]. }
  apply (Hx 2 "KeyboardInterrupt"); [lia|reflexivity].
Qed.



(** C6 (as the script behaves). [load_test] does not check its
    configuration.  With a non-positive duration that fits a [float], and
    whatever the timeout, no error is raised: when the clock has not gone
    backwards between its first two readings, no request is dispatched and
    the call returns the empty list of rows.  A timeout is first looked at by
    [session.get]: with a session that rejects a non-positive timeout (by an
    exception that is not a [RequestException]) and a duration that lets the
    loop start, the call ends with that exception at the first request,
    after the two opening lines, and no row is recorded.  A duration too
    large for a [float] ends the call with [OverflowError] at line 18. *)
Theorem configuration_is_not_checked
    (w : World) (p : Faults.Platform) (url : string)
    (duration_seconds timeout_seconds sleep_ms : Z) (fuel : nat) :
  (Faults.starts p duration_seconds ->
   (duration_seconds <= 0)%Z ->
   (time_time w 0 <= time_time w 1)%Q ->
   dispatches w (end_time_of w duration_seconds) 0
   /\ Faults.load_test fuel w p url duration_seconds timeout_seconds sleep_ms
      = Returned [] [])
  /\ (checks_timeout w ->
      (timeout_seconds <= 0)%Z ->
      Faults.starts p duration_seconds ->
      before_deadline w (end_time_of w duration_seconds) 1 = true ->
      1 <= fuel ->
      exists exn,
        session_get w 1 url timeout_seconds = OtherException exn
        /\ Faults.load_test fuel w p url duration_seconds timeout_seconds sleep_ms
           = Raised exn [])
  /\ (Faults.float_of_int duration_seconds = None ->
      Faults.load_test fuel w p url duration_seconds timeout_seconds sleep_ms
      = Raised Faults.OverflowError []).
Proof.
  split; [|split].
  - intros Hs Hd Hc.
    assert (Hb : before_deadline w (end_time_of w duration_seconds) 1 = false).
    { unfold before_deadline, np.ltb, end_time_of.
      apply negb_false_iff, Qle_bool_iff.
      assert (inject_Z duration_seconds <= 0)%Q
        by (change 0%Q with (inject_Z 0); now rewrite <- Zle_Qle).
      lra. }
    split.
    + split; [intros k Hk; lia | exact Hb].
    + rewrite faulty_start by assumption. now apply faulty_loop_stop.
  - intros Hc Ht Hs Hb Hf.
    destruct (Hc 1 url timeout_seconds Ht) as [exn He].
    exists exn. split; [exact He|].
    rewrite faulty_start by assumption.
    destruct fuel as [|fuel]; [lia|].
    now rewrite faulty_loop_unfold, Hb, He.
  - intros Hd. unfold Faults.load_test. now rewrite Hd.
Qed.

Lemma configuration_is_not_checked_witness :
  (dispatches sample_world (end_time_of sample_world (-1)) 0
   /\ Faults.load_test 0 sample_world Faults.cpython "http://h:8080/albums" (-1) 0 0
      = Returned [] [])
  /\ (exists exn,
        session_get (with_timeout_check sample_world) 1 "http://h:8080/albums" 0
        = OtherException exn
        /\ Faults.load_test 1 (with_timeout_check sample_world) Faults.cpython
             "http://h:8080/albums" 4 0 0
           = Raised exn [])
  /\ Faults.load_test 1 sample_world Faults.cpython "http://h:8080/albums"
       (10 ^ 309) 10 0
     = Raised Faults.OverflowError [].
Proof.
  split; [|split].
  - apply (proj1 (configuration_is_not_checked sample_world Faults.cpython
                    "http://h:8080/albums" (-1) 0 0 0)).
    + split; [discriminate|reflexivity].
    + lia.
    + vm_compute. discriminate.
  - apply (proj1 (proj2 (configuration_is_not_checked
                           (with_timeout_check sample_world) Faults.cpython
                           "http://h:8080/albums" 4 0 0 1))).
    + intros i url t Ht. exists "ValueError". simpl.
      destruct (Z.leb_spec t 0); [reflexivity|lia].
    + lia.
    + split; [discriminate|reflexivity].
    + reflexivity.
    + lia.
  - apply (proj2 (proj2 (configuration_is_not_checked sample_world Faults.cpython
                           "http://h:8080/albums" (10 ^ 309) 10 0 1))).
    reflexivity.
Defined.

(** C6, counterexample: a run with duration 0 is not aborted by an error;
    it returns, with no row. *)
Lemma zero_duration_returns_normally :
  Faults.load_test 1 sample_world Faults.cpython "http://h:8080/albums" 0 10 0
  = Returned [] []
  /\ forall exn printed,
       Faults.load_test 1 sample_world Faults.cpython "http://h:8080/albums" 0 10 0
       <> Raised exn printed.
Proof. split; [reflexivity | discriminate]. Qed.

(** C9. In every row returned by [load_test], [status_code] is the empty
    string exactly when the request raised a [RequestException], and then
    [error] is the description of the exception; when a response came,
    [status_code] is its status and [error] is empty.  No row has both a
    status and a non-empty error. *)
Theorem status_code_or_error
    (w : World) (url : string) (duration_seconds timeout_seconds sleep_ms : Z)
    (fuel : nat) (rows : list Row) (printed : list line) (r : Row) :
  load_test fuel w url duration_seconds timeout_seconds sleep_ms
  = Returned rows printed ->
  In r rows ->
  let rep := session_get w (request_num r) url timeout_seconds in
  (status_code r = Py.Str "" <-> exists e, rep = RequestException e)
  /\ (forall e, rep = RequestException e -> error r = e)
  /\ (forall s, rep = Response s -> status_code r = Py.Int s /\ error r = "")
  /\ (status_code r = Py.Str "" \/ error r = "").
Proof.
  intros H Hin rep.
  apply load_test_returned in H as (n & _ & Hx & _ & -> & _).
  apply in_map_iff in Hin as (i & <- & Hi). apply in_seq in Hi.
  subst rep. rewrite request_num_row_of.
  destruct (session_get w i url timeout_seconds) as [s|e|e] eqn:E.
  - destruct (row_of_response w url timeout_seconds i s E) as [Hs He].
    rewrite Hs, He. repeat split; try congruence.
    + now intros [? ?].
    + now right.
  - destruct (row_of_exception w url timeout_seconds i e E) as [Hs He].
    rewrite Hs, He. repeat split; try congruence.
    + now exists e.
    + now left.
  - destruct (Hx i e); [lia|assumption].
Qed.

Lemma status_code_or_error_witness :
  let r := mkRow 2 "2024-01-01T00:00:00+00:00" ((1 # 10) * 1000)%Q (Py.Str "") "refused" in
  let rep := session_get sample_world (request_num r) "http://h:8080/albums" 10 in
  (status_code r = Py.Str "" <-> exists e, rep = RequestException e)
  /\ (forall e, rep = RequestException e -> error r = e)
  /\ (forall s, rep = Response s -> status_code r = Py.Int s /\ error r = "")
  /\ (status_code r = Py.Str "" \/ error r = "").
Proof.
  eapply (status_code_or_error sample_world "http://h:8080/albums" 4 10 0 3).
  - reflexivity.
  - simpl. right. left. reflexivity.
Defined.

(** C2 (as the script behaves). For a request that received a response,
    only the status 200 is told apart: the loop prints the "status=200" line
    for 200 and the line with the status for any other one, and [summarize]
    counts the row among the "Non-200 responses" exactly when the status is
    not 200.  Whatever the status, the row is no error and its latency is
    among those of the "Successful responses". *)
Theorem response_classification
    (w : World) (url : string) (duration_seconds timeout_seconds sleep_ms : Z)
    (fuel : nat) (rows : list Row) (printed : list line)
    (j : nat) (r : Row) (status : Z) :
  load_test fuel w url duration_seconds timeout_seconds sleep_ms
  = Returned rows printed ->
  nth_error rows j = Some r ->
  session_get w (S j) url timeout_seconds = Response status ->
  is_non_200 r = negb (status =? 200)%Z
  /\ has_latency r = true
  /\ is_error r = false
  /\ nth_error printed j
     = Some (if (status =? 200)%Z then line_200 (S j) (latency_ms r)
             else line_status (S j) (latency_ms r) (Some status)).
Proof.
  intros H Hj E.
  apply load_test_returned in H as (n & _ & _ & _ & -> & ->).
  apply nth_error_rows_inv in Hj as [Hlt ->].
  rewrite nth_error_lines by assumption.
  destruct (row_of_response w url timeout_seconds (S j) status E) as [Hs He].
  unfold is_non_200, has_latency, is_error. rewrite Hs, He, str_Int_eqb.
  repeat split.
  - simpl. now rewrite orb_false_r.
  - unfold line_at, row_at. rewrite E. simpl.
    now destruct (status =? 200)%Z.
Qed.

Lemma response_classification_witness :
  let r := mkRow 3 "2024-01-01T00:00:00+00:00" ((1 # 50) * 1000)%Q (Py.Int 404) "" in
  is_non_200 r = negb (404 =? 200)%Z
  /\ has_latency r = true
  /\ is_error r = false
  /\ nth_error [line_200 1 ((3 # 5) * 1000)%Q;
                line_error 2 ((1 # 10) * 1000)%Q "refused";
                line_status 3 ((1 # 50) * 1000)%Q (Some 404%Z)] 2
     = Some (if (404 =? 200)%Z then line_200 3 (latency_ms r)
             else line_status 3 (latency_ms r) (Some 404%Z)).
Proof.
  eapply (response_classification sample_world "http://h:8080/albums" 4 10 0 3).
  - reflexivity.
  - reflexivity.
  - reflexivity.
Defined.

(** C2, counterexample: a response with status 201, which is in 200-299, is
    counted among the "Non-200 responses". *)
Lemma status_201_counted_as_non_200 :
  let w := scripted [(Response 201, (1 # 50)%Q)] in
  let rows := rows_of (load_test 1 w "http://h:8080/albums" 2 10 0) in
  is_2xx 201 = true
  /\ length rows = 1
  /\ non_200_responses (fst (summarize rows 500)) = 1.
Proof. repeat split. Qed.

(** ** The report of [summarize] *)


Lemma filter_all {A} (p : A -> bool) (l : list A) :
  (forall x, In x l -> p x = true) -> List.filter p l = l.
Proof.
  induction l as [|x l IH]; intros H; simpl; [reflexivity|].
  rewrite (H x) by now left. f_equal. apply IH. intros y Hy. apply H. now right.
Qed.

(** The mask [arr > threshold] over the latencies, counted on the rows. *)
Lemma slow_count rows thr :
  length (List.filter (fun b : bool => b) (np.gt (latencies rows) thr))
  = length (List.filter
              (fun r => has_latency r && np.ltb thr (latency_ms r)) rows).
Proof.
  unfold latencies, np.gt.
  induction rows as [|r rows IH]; simpl; [reflexivity|].
  destruct (has_latency r); simpl; [|exact IH].
  destruct (np.ltb thr (latency_ms r)); simpl; now rewrite IH.
Qed.

Lemma summarize_statistics rows thr :
  latencies rows <> [] ->
  summarize rows thr
  = ({| total_requests := length rows;
        successful_responses := length (latencies rows);
        non_200_responses := length (non_200 rows);
        errors_exceptions := length (errors rows);
        statistics := Some (compute_stats (latencies rows) thr) |},
     Some (latencies rows)).
Proof.
  unfold summarize. destruct (latencies rows); [congruence|reflexivity].
Qed.

(** C1 (as the script behaves). The total is the sum of the "Successful
    responses", the "Errors/exceptions" and the blank rows (no error text
    and no status); the "Non-200 responses" are counted a second time, being
    part of the "Successful responses".  So the total is the sum of the three
    printed counts exactly when there are as many non-200 as blank rows. *)
Theorem summarize_accounting (rows : list Row) (slow_threshold_ms : Q) :
  let rep := fst (summarize rows slow_threshold_ms) in
  let blank := length (List.filter is_blank rows) in
  total_requests rep
  = successful_responses rep + errors_exceptions rep + blank
  /\ non_200_responses rep <= successful_responses rep
  /\ (total_requests rep
      = successful_responses rep + non_200_responses rep + errors_exceptions rep
      <-> non_200_responses rep = blank).
Proof.
  destruct (summarize_report rows slow_threshold_ms) as (Ht & Hs & Hn & He).
  cbv zeta. rewrite Ht, Hs, Hn, He.
  pose proof (count_partition rows). pose proof (count_non_200_le rows).
  lia.
Qed.

(** C1, counterexample: the run of three requests (a 200, a refused
    connection, a 404) has a total of 3 and printed counts 2, 1 and 1. *)
Lemma accounting_counts_404_twice :
  let rows := rows_of (load_test 3 sample_world "http://h:8080/albums" 4 10 0) in
  let rep := fst (summarize rows 500) in
  total_requests rep = 3
  /\ successful_responses rep = 2
  /\ non_200_responses rep = 1
  /\ errors_exceptions rep = 1
  /\ total_requests rep
     <> successful_responses rep + non_200_responses rep + errors_exceptions rep.
Proof. repeat split. discriminate. Qed.



(** C8 (as the script behaves). The slow percentage is taken over the rows
    that have a latency in [summarize] (a response and no error), not over
    all rows: it is the share of those rows whose latency exceeds the
    threshold.  It is the share of all rows when every row is such a row. *)
Theorem slow_pct_over_responses (rows : list Row) (slow_threshold_ms : Q) :
  latencies rows <> [] ->
  exists st,
    statistics (fst (summarize rows slow_threshold_ms)) = Some st
    /\ slow_pct st
       = (inject_Z (Z.of_nat (length (List.filter
            (fun r => has_latency r && np.ltb slow_threshold_ms (latency_ms r))
            rows)))
          / inject_Z (Z.of_nat (length (List.filter has_latency rows))) * 100)%Q
    /\ ((forall r, In r rows -> has_latency r = true) ->
        slow_pct st = slow_pct_of_all_samples rows slow_threshold_ms).
Proof.
  intros H. rewrite summarize_statistics by assumption.
  eexists. split; [reflexivity|].
  assert (E : slow_pct (compute_stats (latencies rows) slow_threshold_ms)
    = (inject_Z (Z.of_nat (length (List.filter
            (fun r => has_latency r && np.ltb slow_threshold_ms (latency_ms r))
            rows)))
       / inject_Z (Z.of_nat (length (List.filter has_latency rows))) * 100)%Q).
  { unfold compute_stats, slow_pct, np.mean_bool.
    rewrite slow_count. unfold np.gt. rewrite length_map, count_latencies.
    reflexivity. }
  split; [exact E|].
  intros Hall. rewrite E. unfold slow_pct_of_all_samples.
  rewrite (filter_all has_latency) by assumption.
  do 5 f_equal. apply filter_ext_in. intros r Hr. now rewrite Hall.
Qed.

Lemma slow_pct_over_responses_witness :
  let rows := rows_of (load_test 3 sample_world "http://h:8080/albums" 4 10 0) in
  exists st,
    statistics (fst (summarize rows 500)) = Some st
    /\ slow_pct st
       = (inject_Z (Z.of_nat (length (List.filter
            (fun r => has_latency r && np.ltb 500 (latency_ms r)) rows)))
          / inject_Z (Z.of_nat (length (List.filter has_latency rows))) * 100)%Q
    /\ ((forall r, In r rows -> has_latency r = true) ->
        slow_pct st = slow_pct_of_all_samples rows 500).
Proof.
  apply (slow_pct_over_responses
           (rows_of (load_test 3 sample_world "http://h:8080/albums" 4 10 0)) 500).
  vm_compute. discriminate.
Defined.

(** C8, counterexample: of the three rows of the sample run, one is slower
    than 500 ms (a third of all rows), and the reported percentage is 50, the
    refused request being left out. *)
Lemma slow_pct_leaves_errors_out :
  let rows := rows_of (load_test 3 sample_world "http://h:8080/albums" 4 10 0) in
  exists st,
    statistics (fst (summarize rows 500)) = Some st
    /\ (slow_pct st == 50)%Q
    /\ (slow_pct_of_all_samples rows 500 == 100 / 3)%Q
    /\ ~ (slow_pct st == slow_pct_of_all_samples rows 500)%Q.
Proof.
  eexists. split; [reflexivity|]. repeat split.
  apply Qeq_bool_neq. reflexivity.
Qed.

(** ** Percentiles *)

Section Percentile.

Local Open Scope Q_scope.

Lemma Qle_bool_false x y : Qle_bool x y = false -> y <= x.
Proof.
  intros H. destruct (Qlt_le_dec x y) as [L|L]; [|exact L].
  apply Qlt_le_weak, Qle_bool_iff in L. congruence.
Qed.

(** *** [np.sort] sorts and keeps the elements *)

Lemma insert_In x y l : In y (np.insert x l) <-> y = x \/ In y l.
Proof.
  induction l as [|z l IH]; simpl.
  - intuition.
  - destruct (Qle_bool x z); simpl; rewrite ?IH; intuition.
Qed.

Lemma sort_In y l : In y (np.sort l) <-> In y l.
Proof.
  induction l as [|x l IH]; simpl; [reflexivity|].
  rewrite insert_In, IH. intuition.
Qed.

Lemma insert_length x l : length (np.insert x l) = S (length l).
Proof.
  induction l as [|z l IH]; simpl; [reflexivity|].
  destruct (Qle_bool x z); simpl; now rewrite ?IH.
Qed.

Lemma sort_length l : length (np.sort l) = length l.
Proof.
  induction l as [|x l IH]; simpl; [reflexivity|].
  now rewrite insert_length, IH.
Qed.

Lemma insert_sorted x l :
  StronglySorted Qle l -> StronglySorted Qle (np.insert x l).
Proof.
  induction 1 as [|z l Hs IH Hz]; simpl.
  - constructor; constructor.
  - destruct (Qle_bool x z) eqn:E.
    + apply Qle_bool_iff in E. constructor.
      * now constructor.
      * constructor; [exact E|].
        eapply Forall_impl; [|exact Hz]. intros a Ha. now apply Qle_trans with z.
    + apply Qle_bool_false in E. constructor; [exact IH|].
      apply Forall_forall. intros a Ha. apply insert_In in Ha as [->|Ha].
      * exact E.
      * rewrite Forall_forall in Hz. now apply Hz.
Qed.

Lemma sort_sorted l : StronglySorted Qle (np.sort l).
Proof.
  induction l as [|x l IH]; simpl; [constructor|now apply insert_sorted].
Qed.

Lemma sorted_nth s :
  StronglySorted Qle s ->
  forall i j, (i <= j)%nat -> (j < length s)%nat -> nth i s 0 <= nth j s 0.
Proof.
  induction 1 as [|z l Hs IH Hz]; intros i j Hij Hj; simpl in Hj; [lia|].
  destruct i as [|i], j as [|j]; simpl; try lia.
  - apply Qle_refl.
  - rewrite Forall_forall in Hz. apply Hz, nth_In. lia.
  - apply IH; lia.
Qed.

(** *** [np.max] bounds every element *)

Lemma Qmaxb_l x y : x <= np.Qmaxb x y.
Proof.
  unfold np.Qmaxb. destruct (Qle_bool x y) eqn:E.
  - now apply Qle_bool_iff.
  - apply Qle_refl.
Qed.

Lemma Qmaxb_r x y : y <= np.Qmaxb x y.
Proof.
  unfold np.Qmaxb. destruct (Qle_bool x y) eqn:E.
  - apply Qle_refl.
  - now apply Qle_bool_false.
Qed.

Lemma fold_max_ge l : forall m,
  m <= fold_left np.Qmaxb l m
  /\ forall x, In x l -> x <= fold_left np.Qmaxb l m.
Proof.
  induction l as [|y l IH]; intros m; simpl.
  - split; [apply Qle_refl|intros x []].
  - destruct (IH (np.Qmaxb m y)) as [Hm Hl]. split.
    + eapply Qle_trans; [apply Qmaxb_l|exact Hm].
    + intros x [->|Hx]; [|now apply Hl].
      eapply Qle_trans; [apply Qmaxb_r|exact Hm].
Qed.

Lemma max_ge l x : In x l -> x <= np.max l.
Proof.
  destruct l as [|y l]; simpl; [intros []|].
  destruct (fold_max_ge l y) as [Hm Hl].
  intros [<-|Hx]; [exact Hm|now apply Hl].
Qed.

(** *** Linear interpolation on sorted data *)

Section Interpolate.

Variable s : list Q.
Hypothesis s_sorted : StronglySorted Qle s.

Let last_index : Q := inject_Z (Z.of_nat (length s) - 1).

Lemma floor_range v :
  0 <= v -> v <= last_index ->
  (0 <= Qfloor v <= Z.of_nat (length s) - 1)%Z.
Proof.
  intros H0 H1. split.
  - change 0%Z with (Qfloor 0). now apply Qfloor_resp_le.
  - rewrite <- (Qfloor_Z (Z.of_nat (length s) - 1)).
    now apply Qfloor_resp_le.
Qed.

Lemma frac_range v :
  0 <= v - inject_Z (Qfloor v) /\ v - inject_Z (Qfloor v) <= 1.
Proof.
  pose proof (Qfloor_le v) as L. pose proof (Qlt_floor v) as U.
  rewrite inject_Z_plus in U. change (inject_Z 1) with 1 in U.
  split; lra.
Qed.

(** The interpolated value lies between the two ranks it is taken
    from. *)
Lemma interpolate_bounds v :
  0 <= v -> v <= last_index ->
  let i := Z.to_nat (Qfloor v) in
  nth i s 0 <= np.interpolate s v
  /\ np.interpolate s v <= nth (Nat.min (S i) (length s - 1)) s 0.
Proof.
  intros H0 H1 i. unfold np.interpolate. fold i.
  destruct (floor_range v H0 H1) as [F0 F1].
  destruct (frac_range v) as [G0 G1].
  assert (Hlo : nth i s 0 <= nth (Nat.min (S i) (length s - 1)) s 0).
  { apply sorted_nth; [exact s_sorted| |]; subst i; lia. }
  set (g := v - inject_Z (Qfloor v)) in *.
  set (lo := nth i s 0) in *.
  set (hi := nth (Nat.min (S i) (length s - 1)) s 0) in *.
  split; nra.
Qed.

Lemma interpolate_mono v1 v2 :
  0 <= v1 -> v1 <= v2 -> v2 <= last_index ->
  np.interpolate s v1 <= np.interpolate s v2.
Proof.
  intros H0 H12 H2.
  assert (H1 : v1 <= last_index) by lra.
  assert (H0' : 0 <= v2) by lra.
  destruct (floor_range v1 H0 H1) as [F0 F1].
  destruct (floor_range v2 H0' H2) as [F0' F1'].
  pose proof (Qfloor_resp_le v1 v2 H12) as Hf.
  destruct (Z.eq_dec (Qfloor v1) (Qfloor v2)) as [E|N].
  - unfold np.interpolate. rewrite E.
    set (i := Z.to_nat (Qfloor v2)).
    assert (Hlo : nth i s 0 <= nth (Nat.min (S i) (length s - 1)) s 0).
    { apply sorted_nth; [exact s_sorted| |]; subst i; lia. }
    destruct (frac_range v1) as [G0 G1]. rewrite E in G0, G1.
    set (lo := nth i s 0) in *.
    set (hi := nth (Nat.min (S i) (length s - 1)) s 0) in *.
    set (f := inject_Z (Qfloor v2)) in *.
    nra.
  - destruct (interpolate_bounds v1 H0 H1) as [_ U1].
    destruct (interpolate_bounds v2 H0' H2) as [L2 _].
    cbv zeta in U1, L2.
    eapply Qle_trans; [exact U1|]. eapply Qle_trans; [|exact L2].
    apply sorted_nth; [exact s_sorted| |]; lia.
Qed.

End Interpolate.

(** *** [np.percentile] *)

Lemma virtual_index_range (n : nat) q :
  (1 <= n)%nat -> 0 <= q -> q <= 100 ->
  0 <= q / 100 * inject_Z (Z.of_nat n - 1)
  /\ q / 100 * inject_Z (Z.of_nat n - 1) <= inject_Z (Z.of_nat n - 1).
Proof.
  intros Hn H0 H1.
  assert (HN : 0 <= inject_Z (Z.of_nat n - 1)).
  { change 0 with (inject_Z 0). rewrite <- Zle_Qle. lia. }
  set (N := inject_Z (Z.of_nat n - 1)) in *.
  unfold Qdiv. change (/ 100) with (1 # 100).
  assert (C0 : 0 <= q * (1 # 100)) by lra.
  assert (C1 : q * (1 # 100) <= 1) by lra.
  set (c := q * (1 # 100)) in *.
  split; nra.
Qed.

Lemma virtual_index_mono (n : nat) q1 q2 :
  (1 <= n)%nat -> q1 <= q2 ->
  q1 / 100 * inject_Z (Z.of_nat n - 1) <= q2 / 100 * inject_Z (Z.of_nat n - 1).
Proof.
  intros Hn H.
  assert (HN : 0 <= inject_Z (Z.of_nat n - 1)).
  { change 0 with (inject_Z 0). rewrite <- Zle_Qle. lia. }
  set (N := inject_Z (Z.of_nat n - 1)) in *.
  unfold Qdiv. change (/ 100) with (1 # 100).
  assert (C : q1 * (1 # 100) <= q2 * (1 # 100)) by lra.
  set (c1 := q1 * (1 # 100)) in *. set (c2 := q2 * (1 # 100)) in *.
  nra.
Qed.

Lemma nonempty_length {A} (l : list A) : l <> [] -> (1 <= length l)%nat.
Proof. destruct l; simpl; [congruence|lia]. Qed.

Lemma percentile_mono arr q1 q2 :
  arr <> [] -> 0 <= q1 -> q1 <= q2 -> q2 <= 100 ->
  np.percentile arr q1 <= np.percentile arr q2.
Proof.
  intros Hne H0 H12 H2. unfold np.percentile.
  pose proof (nonempty_length arr Hne) as Hn. rewrite <- sort_length in Hn.
  apply interpolate_mono.
  - apply sort_sorted.
  - apply virtual_index_range; [exact Hn|lra|lra].
  - now apply virtual_index_mono.
  - apply virtual_index_range; [exact Hn|lra|lra].
Qed.

Lemma percentile_le_max arr q :
  arr <> [] -> 0 <= q -> q <= 100 -> np.percentile arr q <= np.max arr.
Proof.
  intros Hne H0 H1. unfold np.percentile.
  pose proof (nonempty_length arr Hne) as Hn. rewrite <- sort_length in Hn.
  destruct (virtual_index_range (length (np.sort arr)) q Hn H0 H1) as [V0 V1].
  destruct (interpolate_bounds (np.sort arr) (sort_sorted arr) _ V0 V1) as [_ U].
  cbv zeta in U. eapply Qle_trans; [exact U|].
  apply max_ge, sort_In, nth_In. lia.
Qed.

End Percentile.

Lemma fold_max_In (l : list Q) : forall m,
  fold_left np.Qmaxb l m = m \/ In (fold_left np.Qmaxb l m) l.
Proof.
  induction l as [|a l IH]; intros m; simpl; [now left|].
  destruct (IH (np.Qmaxb m a)) as [E|Hin]; [|right; now right].
  rewrite E. unfold np.Qmaxb. destruct (Qle_bool m a); [right|]; now left.
Qed.

(** [np.max] returns one of the elements. *)
Lemma max_In (l : list Q) : l <> [] -> In (np.max l) l.
Proof.
  destruct l as [|a l]; [congruence|]. intros _. simpl np.max.
  destruct (fold_max_In l a) as [E|Hin]; [rewrite E; now left|now right].
Qed.

(** A percentile is not below a lower bound of the data. *)
Lemma percentile_ge (arr : list Q) (q lo : Q) :
  arr <> [] -> (0 <= q)%Q -> (q <= 100)%Q ->
  (forall x, In x arr -> (lo <= x)%Q) ->
  (lo <= np.percentile arr q)%Q.
Proof.
  intros Hne H0 H1 Hlo. unfold np.percentile.
  pose proof (nonempty_length arr Hne) as Hn. rewrite <- sort_length in Hn.
  destruct (virtual_index_range (length (np.sort arr)) q Hn H0 H1) as [V0 V1].
  destruct (interpolate_bounds (np.sort arr) (sort_sorted arr) _ V0 V1) as [L _].
  destruct (floor_range (np.sort arr) _ V0 V1) as [F0 F1].
  cbv zeta in L. eapply Qle_trans; [|exact L].
  apply Hlo, sort_In, nth_In. lia.
Qed.

(** C7. For a non-empty set of latencies, which are durations and so not
    negative, the percentiles that [summarize] reports are in order and
    below the maximum, [p50 <= p95 <= p99 <= max], where the maximum is the
    largest of the collected latencies (it is one of them and none exceeds
    it) and the median is not below the smallest of them.  (Between
    non-negative numbers the differences that the interpolation takes do not
    leave the range of binary64: the script computes finite values as
    well.) *)
Theorem percentiles_monotone (rows : list Row) (slow_threshold_ms : Q) :
  latencies rows <> [] ->
  (forall x, In x (latencies rows) -> (0 <= x)%Q) ->
  exists st,
    statistics (fst (summarize rows slow_threshold_ms)) = Some st
    /\ (p50 st <= p95 st)%Q
    /\ (p95 st <= p99 st)%Q
    /\ (p99 st <= max st)%Q
    /\ In (max st) (latencies rows)
    /\ (forall x, In x (latencies rows) -> (x <= max st)%Q)
    /\ (forall lo, (forall x, In x (latencies rows) -> (lo <= x)%Q) ->
                   (lo <= p50 st)%Q).
Proof.
  intros H Hpos. rewrite summarize_statistics by assumption.
  eexists. split; [reflexivity|]. simpl.
  split; [apply percentile_mono; [assumption|lra..]|].
  split; [apply percentile_mono; [assumption|lra..]|].
  split; [apply percentile_le_max; [assumption|lra..]|].
  split; [now apply max_In|].
  split; [intros x Hx; now apply max_ge|].
  intros lo Hlo. apply percentile_ge; [assumption|lra..|assumption].
Qed.

Lemma percentiles_monotone_witness :
  let rows := rows_of (load_test 3 sample_world "http://h:8080/albums" 4 10 0) in
  exists st,
    statistics (fst (summarize rows 500)) = Some st
    /\ (p50 st <= p95 st)%Q
    /\ (p95 st <= p99 st)%Q
    /\ (p99 st <= max st)%Q
    /\ In (max st) (latencies rows)
    /\ (forall x, In x (latencies rows) -> (x <= max st)%Q)
    /\ (forall lo, (forall x, In x (latencies rows) -> (lo <= x)%Q) ->
                   (lo <= p50 st)%Q).
Proof.
  apply (percentiles_monotone
           (rows_of (load_test 3 sample_world "http://h:8080/albums" 4 10 0)) 500).
  - vm_compute. discriminate.
  - intros x [<-|[<-|[]]]; vm_compute; discriminate.
Defined.

(** ** [summarize] and the store *)

Section Store.

Implicit Types (h : gmap Heap.loc Heap.obj) (items : list Heap.loc) (rs : list Row).

Lemma ret_extends {A} (a : A) : Heap.extends (Heap.ret a).
Proof. intros h a' h' H. injection H as _ <-. reflexivity. Qed.

Lemma bind_extends {A B} (m : Heap.M A) (k : A -> Heap.M B) :
  Heap.extends m -> (forall a, Heap.extends (k a)) -> Heap.extends (Heap.bind m k).
Proof.
  intros Hm Hk h b h'. unfold Heap.bind.
  destruct (m h) as [[a h1]|] eqn:E; [|discriminate].
  intros H. transitivity h1; [eapply Hm, E | eapply Hk, H].
Qed.

Lemma alloc_fresh o h l h' :
  Heap.alloc o h = Some (l, h') -> h !! l = None /\ h' = <[l := o]> h.
Proof.
  unfold Heap.alloc. intros H. injection H as <- <-. split; [|reflexivity].
  apply not_elem_of_dom, is_fresh.
Qed.

Lemma alloc_extends o : Heap.extends (Heap.alloc o).
Proof.
  intros h l h' H. apply alloc_fresh in H as [Hl ->].
  now apply insert_subseteq.
Qed.

Lemma read_list_extends l : Heap.extends (Heap.read_list l).
Proof.
  intros h a h'. unfold Heap.read_list.
  destruct (h !! l) as [[]|]; try discriminate.
  intros H. injection H as _ <-. reflexivity.
Qed.

Lemma read_dict_extends l : Heap.extends (Heap.read_dict l).
Proof.
  intros h a h'. unfold Heap.read_dict.
  destruct (h !! l) as [[]|]; try discriminate.
  intros H. injection H as _ <-. reflexivity.
Qed.

Lemma comprehension_extends {A} cond (item : Heap.loc -> Row -> A) items :
  Heap.extends (Heap.comprehension cond item items).
Proof.
  induction items as [|l items IH]; simpl.
  - apply ret_extends.
  - apply bind_extends; [apply read_dict_extends|]. intros r.
    apply bind_extends; [exact IH|]. intros rest. apply ret_extends.
Qed.

Lemma summarize_extends rows thr : Heap.extends (Heap.summarize rows thr).
Proof.
  unfold Heap.summarize.
  repeat (apply bind_extends;
          [first [ apply read_list_extends | apply comprehension_extends
                 | apply alloc_extends ] | intros ?]).
  destruct a0.
  - apply ret_extends.
  - apply bind_extends; [apply alloc_extends|]. intros ?. apply ret_extends.
Qed.

(** A list of dictionaries stays what it is when objects are added. *)
Lemma holds_weaken h h' rows rs : h ⊆ h' -> Heap.holds h rows rs -> Heap.holds h' rows rs.
Proof.
  intros Hsub (items & Hl & Hd). exists items. split.
  - eapply lookup_weaken; eassumption.
  - eapply Forall2_impl; [|exact Hd]. intros l r Hr. cbv beta in Hr |- *.
    exact (lookup_weaken _ _ _ _ Hr Hsub).
Qed.

(** The comprehensions on a store that Heap.holds the rows. *)
Lemma comprehension_run {A} cond (item : Heap.loc -> Row -> A) h items rs :
  Forall2 (fun l r => h !! l = Some (Heap.Dict r)) items rs ->
  exists out,
    Heap.comprehension cond item items h = Some (out, h)
    /\ length out = length (List.filter cond rs)
    /\ (forall f, (forall l r, item l r = f r) ->
                  out = map f (List.filter cond rs)).
Proof.
  induction 1 as [|l r items rs Hl Hd IH]; simpl.
  - exists []. repeat split.
  - destruct IH as (out & Hc & Hlen & Hmap).
    unfold Heap.bind, Heap.read_dict. rewrite Hl, Hc. unfold Heap.ret.
    eexists. split; [reflexivity|].
    destruct (cond r); simpl; split; auto.
    + intros f Hf. now rewrite (Hmap f Hf), Hf.
Qed.

Lemma bind_run {A B} (m : Heap.M A) (k : A -> Heap.M B) h a h1 :
  m h = Some (a, h1) -> Heap.bind m k h = k a h1.
Proof. unfold Heap.bind. now intros ->. Qed.

Lemma alloc_run o h :
  exists l, Heap.alloc o h = Some (l, <[l := o]> h)
            /\ h !! l = None /\ h ⊆ <[l := o]> h.
Proof.
  exists (fresh (dom h)).
  assert (h !! fresh (dom h) = None) by apply not_elem_of_dom, is_fresh.
  repeat split; [assumption|now apply insert_subseteq].
Qed.

(** [Heap.summarize] on a store that Heap.holds the rows: it returns, the
    report is that of [summarize], and the store has grown by the lists of
    the comprehensions and by the array. *)
Lemma summarize_run h rows rs thr :
  Heap.holds h rows rs ->
  exists ret h',
    Heap.summarize rows thr h = Some ((fst (summarize rs thr), ret), h')
    /\ match ret with
       | None => snd (summarize rs thr) = None
       | Some arr =>
           h !! arr = None
           /\ h' !! arr = Some (Heap.Floats (latencies rs))
           /\ snd (summarize rs thr) = Some (latencies rs)
       end.
Proof.
  intros (items & Hl & Hd).
  unfold Heap.summarize.
  rewrite (bind_run _ _ h items h) by (unfold Heap.read_list; now rewrite Hl).
  destruct (comprehension_run has_latency (fun _ r => latency_ms r)
              h items rs Hd) as (lat & Hc1 & _ & Hlat).
  specialize (Hlat latency_ms (fun _ _ => eq_refl)). fold (latencies rs) in Hlat.
  subst lat. rewrite (bind_run _ _ _ _ _ Hc1).
  destruct (alloc_run (Heap.Floats (latencies rs)) h) as (l1 & Ha1 & _ & S1).
  rewrite (bind_run _ _ _ _ _ Ha1). set (h1 := <[l1 := _]> h) in *.
  assert (Hd1 : Forall2 (fun l r => h1 !! l = Some (Heap.Dict r)) items rs).
  { eapply Forall2_impl; [|exact Hd]. intros l r Hr. cbv beta in Hr |- *.
    exact (lookup_weaken _ _ _ _ Hr S1). }
  destruct (comprehension_run is_error (fun l _ => l) h1 items rs Hd1)
    as (errs & Hc2 & Hlen2 & _).
  rewrite (bind_run _ _ _ _ _ Hc2).
  destruct (alloc_run (Heap.List errs) h1) as (l2 & Ha2 & _ & S2).
  rewrite (bind_run _ _ _ _ _ Ha2). set (h2 := <[l2 := _]> h1) in *.
  assert (Hd2 : Forall2 (fun l r => h2 !! l = Some (Heap.Dict r)) items rs).
  { eapply Forall2_impl; [|exact Hd1]. intros l r Hr. cbv beta in Hr |- *.
    exact (lookup_weaken _ _ _ _ Hr S2). }
  destruct (comprehension_run is_non_200 (fun l _ => l) h2 items rs Hd2)
    as (n200 & Hc3 & Hlen3 & _).
  rewrite (bind_run _ _ _ _ _ Hc3).
  destruct (alloc_run (Heap.List n200) h2) as (l3 & Ha3 & _ & S3).
  rewrite (bind_run _ _ _ _ _ Ha3). set (h3 := <[l3 := _]> h2) in *.
  rewrite (Forall2_length Hd), Hlen2, Hlen3.
  unfold summarize. fold (errors rs). fold (non_200 rs).
  destruct (latencies rs) as [|x lat] eqn:E.
  - exists None, h3. split; reflexivity.
  - destruct (alloc_run (Heap.Floats (x :: lat)) h3) as (l4 & Ha4 & Hf4 & S4).
    rewrite (bind_run _ _ _ _ _ Ha4).
    exists (Some l4), (<[l4 := Heap.Floats (x :: lat)]> h3).
    split; [reflexivity|]. repeat split.
    + destruct (h !! l4) as [o|] eqn:Ho; [|reflexivity].
      assert (h3 !! l4 = Some o); [|congruence].
      eapply lookup_weaken; [exact Ho|].
      transitivity h1; [exact S1|]. transitivity h2; assumption.
    + apply lookup_insert_eq.
Qed.

End Store.

(** C10. [summarize] does not modify its argument: on a store that holds
    the list [rows] and its dictionaries, the call returns and every object of
    the store is afterwards what it was before, the list and each of its rows
    in particular.  The lists of the comprehensions and the returned array are
    new objects. *)
Theorem summarize_leaves_rows_unchanged
    (h : gmap Heap.loc Heap.obj) (rows : Heap.loc) (rs : list Row)
    (slow_threshold_ms : Q) :
  Heap.holds h rows rs ->
  exists report ret h',
    Heap.summarize rows slow_threshold_ms h = Some ((report, ret), h')
    /\ (forall l o, h !! l = Some o -> h' !! l = Some o)
    /\ Heap.holds h' rows rs
    /\ report = fst (summarize rs slow_threshold_ms)
    /\ match ret with
       | None => snd (summarize rs slow_threshold_ms) = None
       | Some arr =>
           h !! arr = None
           /\ h' !! arr = Some (Heap.Floats (latencies rs))
           /\ snd (summarize rs slow_threshold_ms) = Some (latencies rs)
       end.
Proof.
  intros H.
  destruct (summarize_run h rows rs slow_threshold_ms H) as (ret & h' & Hrun & Hret).
  pose proof (summarize_extends rows slow_threshold_ms _ _ _ Hrun) as Hsub.
  exists (fst (summarize rs slow_threshold_ms)), ret, h'.
  split; [exact Hrun|]. split.
  - intros l o Hl. exact (lookup_weaken _ _ _ _ Hl Hsub).
  - split; [now apply holds_weaken with h|]. split; [reflexivity|exact Hret].
Qed.

Lemma summarize_leaves_rows_unchanged_witness :
  exists report ret h',
    Heap.summarize 1%positive 500 sample_store = Some ((report, ret), h')
    /\ (forall l o, sample_store !! l = Some o -> h' !! l = Some o)
    /\ Heap.holds h' 1%positive sample_rows
    /\ report = fst (summarize sample_rows 500)
    /\ match ret with
       | None => snd (summarize sample_rows 500) = None
       | Some arr =>
           sample_store !! arr = None
           /\ h' !! arr = Some (Heap.Floats (latencies sample_rows))
           /\ snd (summarize sample_rows 500) = Some (latencies sample_rows)
       end.
Proof.
  apply (summarize_leaves_rows_unchanged sample_store 1%positive sample_rows 500).
  exists [2; 3; 4]%positive. split; [reflexivity|].
  repeat constructor.
Defined.

(** ** The functions on small inputs *)

Example sort_example :
  np.sort [600; 20; 100]%Q = [20; 100; 600]%Q.
Proof. reflexivity. Qed.

Example percentile_examples :
  (np.percentile [600; 20] 50 == 310)%Q
  /\ (np.percentile [600; 20] 95 == 571)%Q
  /\ (np.percentile [1; 2; 3; 4; 5] 99 == 496 # 100)%Q
  /\ (np.percentile [7] 95 == 7)%Q
  /\ (np.max [600; 20; 100] == 600)%Q
  /\ (np.mean [600; 20; 100] == 240)%Q.
Proof. repeat split. Qed.

Example str_examples :
  Py.str (Py.Int 200) = "200" /\ Py.str (Py.Int 0) = "0"
  /\ Py.str (Py.Int (-1)) = "-1" /\ Py.str (Py.Str "") = "".
Proof. repeat split. Qed.

Example sample_run :
  load_test 3 sample_world "http://h:8080/albums" 4 10 0
  = Returned
      [mkRow 1 "2024-01-01T00:00:00+00:00" (3000 # 5) (Py.Int 200) "";
       mkRow 2 "2024-01-01T00:00:00+00:00" (1000 # 10) (Py.Str "") "refused";
       mkRow 3 "2024-01-01T00:00:00+00:00" (1000 # 50) (Py.Int 404) ""]
      [line_200 1 (3000 # 5);
       line_error 2 (1000 # 10) "refused";
       line_status 3 (1000 # 50) (Some 404%Z)].
Proof. reflexivity. Qed.

(** An exception of another class than [RequestException] is not caught:
    it ends the call, and the rows collected so far are not returned. *)
Example other_exception_propagates :
  load_test 3
    (scripted [(Response 200, (1 # 50)%Q); (OtherException "interrupted", 0%Q)])
    "http://h:8080/albums" 4 10 0
  = Raised "interrupted"
      [line_200 1 (1000 # 50)].
Proof. reflexivity. Qed.

(** A [RequestException] whose description is empty leaves a row with
    neither status nor error, which enters none of the counts. *)
Example blank_row :
  let rows := rows_of (load_test 1 (scripted [(RequestException "", 0%Q)])
                         "http://h:8080/albums" 2 10 0) in
  map is_blank rows = [true]
  /\ fst (summarize rows 500) = mkReport 1 0 0 0 None.
Proof. repeat split. Qed.

(** * Further properties of the script *)

(** ** [load_test]: the printed lines, failures and latencies *)

Lemma line_at_row_at w url timeout_seconds i :
  line_at w url timeout_seconds i = line_of_row (row_at w url timeout_seconds i).
Proof.
  unfold line_at, row_at, line_of_row.
  destruct (session_get w i url timeout_seconds) as [s|e|e]; simpl.
  - now destruct (s =? 200)%Z.
  - unfold Py.truthy. now destruct (String.eqb e "").
  - reflexivity.
Qed.

(** X1. The console log of a run is determined by the rows it returns: the
    line printed for a request is an "ERROR" line when the row has an error
    text, the "status=200" line when its status is 200, and the line with
    the status (or [None]) otherwise, each with the number and the latency
    of the row. *)
Theorem printed_lines_follow_rows
    (w : World) (url : string) (duration_seconds timeout_seconds sleep_ms : Z)
    (fuel : nat) (rows : list Row) (printed : list line) :
  load_test fuel w url duration_seconds timeout_seconds sleep_ms
  = Returned rows printed ->
  printed = map line_of_row rows.
Proof.
  intros H. apply load_test_returned in H as (n & _ & _ & _ & -> & ->).
  rewrite map_map. apply map_ext. intros i. apply line_at_row_at.
Qed.

Lemma printed_lines_follow_rows_witness :
  [line_200 1 (3000 # 5); line_error 2 (1000 # 10) "refused";
   line_status 3 (1000 # 50) (Some 404%Z)]
  = map line_of_row
      [mkRow 1 "2024-01-01T00:00:00+00:00" (3000 # 5) (Py.Int 200) "";
       mkRow 2 "2024-01-01T00:00:00+00:00" (1000 # 10) (Py.Str "") "refused";
       mkRow 3 "2024-01-01T00:00:00+00:00" (1000 # 50) (Py.Int 404) ""].
Proof.
  apply (printed_lines_follow_rows sample_world "http://h:8080/albums" 4 10 0 3).
  reflexivity.
Defined.

Section LoopFailures.

Variables (w : World) (url : string) (timeout_seconds : Z) (end_time : Q).

Let loop fuel := load_test_loop fuel w url timeout_seconds end_time.



End LoopFailures.





(** X4. When [time.perf_counter] does not go backwards during a request,
    every row has a non-negative latency. *)
Theorem latencies_nonnegative
    (w : World) (url : string) (duration_seconds timeout_seconds sleep_ms : Z)
    (fuel : nat) (rows : list Row) (printed : list line) (r : Row) :
  (forall i, (fst (perf_counter w i) <= snd (perf_counter w i))%Q) ->
  load_test fuel w url duration_seconds timeout_seconds sleep_ms
  = Returned rows printed ->
  In r rows ->
  (0 <= latency_ms r)%Q.
Proof.
  intros Hpc H Hin.
  apply load_test_returned in H as (n & _ & _ & _ & -> & _).
  apply in_map_iff in Hin as (i & <- & _).
  unfold row_at. simpl. specialize (Hpc i). nra.
Qed.

Lemma latencies_nonnegative_witness :
  (0 <= latency_ms (mkRow 2 "2024-01-01T00:00:00+00:00" (1000 # 10) (Py.Str "") "refused"))%Q.
Proof.
  apply (latencies_nonnegative sample_world "http://h:8080/albums" 4 10 0 3
           [mkRow 1 "2024-01-01T00:00:00+00:00" (3000 # 5) (Py.Int 200) "";
            mkRow 2 "2024-01-01T00:00:00+00:00" (1000 # 10) (Py.Str "") "refused";
            mkRow 3 "2024-01-01T00:00:00+00:00" (1000 # 50) (Py.Int 404) ""]
           [line_200 1 (3000 # 5); line_error 2 (1000 # 10) "refused";
            line_status 3 (1000 # 50) (Some 404%Z)]).
  - intros i. unfold sample_world, scripted. simpl.
    destruct (i - 1) as [|[|[|[|k]]]]; simpl; vm_compute; discriminate.
  - reflexivity.
  - simpl. right. left. reflexivity.
Defined.

(** ** [summarize]: the counts and the returned value *)

Lemma has_latency_split r :
  (if has_latency r then 1 else 0)
  = (if is_200 r then 1 else 0) + (if is_non_200 r then 1 else 0).
Proof.
  unfold has_latency, is_200, is_non_200, Py.mem.
  destruct (String.eqb (error r) ""); simpl; [|reflexivity].
  destruct (status_code r) as [n|s].
  - rewrite str_Int_eqb. simpl. now destruct (n =? 200)%Z.
  - simpl. destruct (String.eqb_spec s "") as [->|Hne]; simpl; [reflexivity|].
    now destruct (String.eqb s "200").
Qed.

Lemma count_has_latency_split (rows : list Row) :
  length (List.filter has_latency rows)
  = length (List.filter is_200 rows) + length (List.filter is_non_200 rows).
Proof.
  induction rows as [|r rows IH]; simpl; [reflexivity|].
  pose proof (has_latency_split r) as S.
  destruct (has_latency r), (is_200 r), (is_non_200 r); simpl in *; lia.
Qed.

(** X5. The "Successful responses" are the rows with status 200 and the
    "Non-200 responses" together: every row with a latency is of exactly one
    of the two kinds. *)
Theorem successful_splits_by_status (rows : list Row) (slow_threshold_ms : Q) :
  let rep := fst (summarize rows slow_threshold_ms) in
  successful_responses rep
  = length (List.filter is_200 rows) + non_200_responses rep.
Proof.
  destruct (summarize_report rows slow_threshold_ms) as (_ & Hs & Hn & _).
  cbv zeta. rewrite Hs, Hn. apply count_has_latency_split.
Qed.


(** ** [summarize]: the statistics *)

Section Statistics.

Local Open Scope Q_scope.

Lemma filter_length_zero {A} (p : A -> bool) (l : list A) :
  length (List.filter p l) = 0%nat <-> forall x, In x l -> p x = false.
Proof.
  induction l as [|a l IH]; simpl.
  - split; [intros _ x []|reflexivity].
  - destruct (p a) eqn:E; simpl.
    + split; [discriminate|]. intros H. rewrite (H a) in E by now left.
      discriminate.
    + rewrite IH. split.
      * intros H x [<-|Hx]; auto.
      * intros H x Hx. apply H. now right.
Qed.

Lemma filter_length_all {A} (p : A -> bool) (l : list A) :
  length (List.filter p l) = length l <-> forall x, In x l -> p x = true.
Proof.
  induction l as [|a l IH]; simpl.
  - split; [intros _ x []|reflexivity].
  - pose proof (filter_length_le p l) as Hle.
    destruct (p a) eqn:E; simpl.
    + split.
      * intros H x [<-|Hx]; [exact E|]. apply IH; [lia|exact Hx].
      * intros H. f_equal. apply IH. intros x Hx. apply H. now right.
    + split; [lia|]. intros H. rewrite (H a) in E by now left. discriminate.
Qed.

Lemma filter_length_mono {A} (p q : A -> bool) (l : list A) :
  (forall x, p x = true -> q x = true) ->
  (length (List.filter p l) <= length (List.filter q l))%nat.
Proof.
  intros H. induction l as [|a l IH]; simpl; [lia|].
  specialize (H a). pose proof (filter_length_le q l).
  destruct (p a), (q a); simpl; try lia.
  all: discriminate H; reflexivity.
Qed.

Lemma inject_nat_pos (n : nat) : (1 <= n)%nat -> 1 <= inject_Z (Z.of_nat n).
Proof. intros H. change 1 with (inject_Z 1). rewrite <- Zle_Qle. lia. Qed.

Lemma inject_nat_le (k n : nat) :
  (k <= n)%nat -> inject_Z (Z.of_nat k) <= inject_Z (Z.of_nat n).
Proof. intros H. rewrite <- Zle_Qle. lia. Qed.

(** The share [k / n * 100] of [k] among [n >= 1]. *)
Lemma share_times (K N : Q) : 1 <= N -> (K / N * 100) * N == K * 100.
Proof. intros H. field. lra. Qed.

Lemma share_range (K N : Q) :
  0 <= K -> K <= N -> 1 <= N -> 0 <= K / N * 100 /\ K / N * 100 <= 100.
Proof.
  intros H0 H1 HN. pose proof (share_times K N HN) as E.
  set (x := K / N * 100) in *. split; nra.
Qed.

Lemma share_zero (K N : Q) : 1 <= N -> (K / N * 100 == 0 <-> K == 0).
Proof.
  intros HN. pose proof (share_times K N HN) as E.
  set (x := K / N * 100) in *. split; intros H; nra.
Qed.

Lemma share_full (K N : Q) : 1 <= N -> (K / N * 100 == 100 <-> K == N).
Proof.
  intros HN. pose proof (share_times K N HN) as E.
  set (x := K / N * 100) in *. split; intros H; nra.
Qed.

Lemma share_mono (K1 K2 N : Q) :
  1 <= N -> K1 <= K2 -> K1 / N * 100 <= K2 / N * 100.
Proof.
  intros HN H. pose proof (share_times K1 N HN) as E1.
  pose proof (share_times K2 N HN) as E2.
  set (x1 := K1 / N * 100) in *. set (x2 := K2 / N * 100) in *. nra.
Qed.

Lemma slow_pct_compute arr thr :
  slow_pct (compute_stats arr thr)
  = inject_Z (Z.of_nat (length (List.filter (fun a => np.ltb thr a) arr)))
    / inject_Z (Z.of_nat (length arr)) * 100.
Proof.
  unfold compute_stats, slow_pct, np.mean_bool, np.gt.
  rewrite length_map. do 4 f_equal.
  induction arr as [|a arr IH]; simpl; [reflexivity|].
  destruct (np.ltb thr a); simpl; now rewrite IH.
Qed.

Lemma ltb_true x y : np.ltb x y = true <-> x < y.
Proof.
  unfold np.ltb. rewrite negb_true_iff. split.
  - intros H. apply Qnot_le_lt. intros L. apply Qle_bool_iff in L. congruence.
  - intros H. destruct (Qle_bool y x) eqn:E; [|reflexivity].
    apply Qle_bool_iff in E. lra.
Qed.

Lemma ltb_false x y : np.ltb x y = false <-> y <= x.
Proof.
  unfold np.ltb. rewrite negb_false_iff. apply Qle_bool_iff.
Qed.

End Statistics.

(** X8. The slow percentage lies between 0 and 100; it is 0 exactly when no
    collected latency exceeds the threshold (a latency equal to the threshold
    is not slow) and 100 exactly when all of them do. *)
Theorem slow_pct_range (rows : list Row) (slow_threshold_ms : Q) :
  latencies rows <> [] ->
  exists st,
    statistics (fst (summarize rows slow_threshold_ms)) = Some st
    /\ (0 <= slow_pct st)%Q /\ (slow_pct st <= 100)%Q
    /\ ((slow_pct st == 0)%Q
        <-> forall x, In x (latencies rows) -> (x <= slow_threshold_ms)%Q)
    /\ ((slow_pct st == 100)%Q
        <-> forall x, In x (latencies rows) -> (slow_threshold_ms < x)%Q).
Proof.
  intros Hne. rewrite summarize_statistics by assumption.
  eexists. split; [reflexivity|]. simpl statistics.
  rewrite slow_pct_compute.
  set (arr := latencies rows) in *.
  set (slow := List.filter (fun a => np.ltb slow_threshold_ms a) arr).
  pose proof (inject_nat_pos _ (nonempty_length arr Hne)) as HN.
  pose proof (filter_length_le (fun a => np.ltb slow_threshold_ms a) arr) as Hle.
  fold slow in Hle.
  assert (H0 : (0 <= inject_Z (Z.of_nat (length slow)))%Q)
    by (change 0%Q with (inject_Z 0); rewrite <- Zle_Qle; lia).
  pose proof (inject_nat_le _ _ Hle) as H1.
  destruct (share_range _ _ H0 H1 HN) as [R0 R1].
  split; [exact R0|]. split; [exact R1|]. split.
  - rewrite share_zero by exact HN.
    change 0%Q with (inject_Z 0). rewrite inject_Z_injective.
    rewrite <- Nat2Z.inj_0, Nat2Z.inj_iff. unfold slow.
    rewrite filter_length_zero. split; intros H x Hx.
    + now apply ltb_false, H.
    + now apply ltb_false, H.
  - rewrite share_full by exact HN.
    rewrite inject_Z_injective, Nat2Z.inj_iff. unfold slow.
    rewrite filter_length_all. split; intros H x Hx.
    + now apply ltb_true, H.
    + now apply ltb_true, H.
Qed.

Lemma slow_pct_range_witness :
  exists st,
    statistics (fst (summarize sample_rows 500)) = Some st
    /\ (0 <= slow_pct st)%Q /\ (slow_pct st <= 100)%Q
    /\ ((slow_pct st == 0)%Q
        <-> forall x, In x (latencies sample_rows) -> (x <= 500)%Q)
    /\ ((slow_pct st == 100)%Q
        <-> forall x, In x (latencies sample_rows) -> (500 < x)%Q).
Proof.
  apply (slow_pct_range sample_rows 500).
  vm_compute. discriminate.
Defined.

(** X9. Raising the threshold never raises the slow percentage. *)
Theorem slow_pct_antitone (rows : list Row) (t1 t2 : Q) :
  latencies rows <> [] ->
  (t1 <= t2)%Q ->
  exists s1 s2,
    statistics (fst (summarize rows t1)) = Some s1
    /\ statistics (fst (summarize rows t2)) = Some s2
    /\ (slow_pct s2 <= slow_pct s1)%Q.
Proof.
  intros Hne Ht. rewrite !summarize_statistics by assumption.
  eexists _, _. split; [reflexivity|]. split; [reflexivity|].
  simpl statistics. rewrite !slow_pct_compute.
  apply share_mono.
  - apply inject_nat_pos, nonempty_length, Hne.
  - apply inject_nat_le, filter_length_mono.
    intros x Hx. apply ltb_true. apply ltb_true in Hx. lra.
Qed.

Lemma slow_pct_antitone_witness :
  exists s1 s2,
    statistics (fst (summarize sample_rows 10)) = Some s1
    /\ statistics (fst (summarize sample_rows 500)) = Some s2
    /\ (slow_pct s2 <= slow_pct s1)%Q.
Proof.
  apply (slow_pct_antitone sample_rows 10 500).
  - vm_compute. discriminate.
  - vm_compute. discriminate.
Defined.

(** ** [load_test] followed by [summarize] *)

Lemma filter_map_length {A B} (f : A -> B) (p : B -> bool) (l : list A) :
  length (List.filter p (map f l)) = length (List.filter (fun a => p (f a)) l).
Proof.
  induction l as [|a l IH]; simpl; [reflexivity|].
  destruct (p (f a)); simpl; now rewrite IH.
Qed.

Section RowKinds.

Variables (w : World) (url : string) (timeout_seconds : Z).

Lemma has_latency_row_at i :
  has_latency (row_at w url timeout_seconds i) = responded w url timeout_seconds i.
Proof.
  unfold has_latency, row_at, responded.
  destruct (session_get w i url timeout_seconds) as [s|e|e]; simpl status_of;
    simpl err_of; simpl error; simpl status_code.
  - now rewrite str_Int_eqb.
  - simpl. apply andb_false_r.
  - reflexivity.
Qed.

Lemma is_non_200_row_at i :
  is_non_200 (row_at w url timeout_seconds i)
  = responded_other_than_200 w url timeout_seconds i.
Proof.
  unfold is_non_200, row_at, responded_other_than_200.
  destruct (session_get w i url timeout_seconds) as [s|e|e]; simpl.
  - now rewrite orb_false_r.
  - apply andb_false_r.
  - reflexivity.
Qed.

Lemma is_error_row_at i :
  is_error (row_at w url timeout_seconds i) = failed_with_text w url timeout_seconds i.
Proof.
  unfold is_error, row_at, failed_with_text.
  now destruct (session_get w i url timeout_seconds) as [s|e|e].
Qed.

End RowKinds.

Lemma report_of_run_counts
    (w : World) (url : string) (duration_seconds timeout_seconds sleep_ms : Z)
    (fuel : nat) (rows : list Row) (printed : list line) (thr : Q) :
  load_test fuel w url duration_seconds timeout_seconds sleep_ms
  = Returned rows printed ->
  total_requests (fst (summarize rows thr)) = length (seq 1 (length rows))
  /\ successful_responses (fst (summarize rows thr))
     = length (List.filter (responded w url timeout_seconds) (seq 1 (length rows)))
  /\ non_200_responses (fst (summarize rows thr))
     = length (List.filter (responded_other_than_200 w url timeout_seconds)
                 (seq 1 (length rows)))
  /\ errors_exceptions (fst (summarize rows thr))
     = length (List.filter (failed_with_text w url timeout_seconds)
                 (seq 1 (length rows))).
Proof.
  intros H. apply load_test_returned in H as (n & _ & _ & _ & -> & _).
  destruct (summarize_report (map (row_at w url timeout_seconds) (seq 1 n))
              thr) as (Ht & Hs & Hn & He).
  rewrite Ht, Hs, Hn, He, !filter_map_length.
  rewrite !length_map, !length_seq.
  repeat split; f_equal; apply filter_ext; intros i.
  - apply has_latency_row_at.
  - apply is_non_200_row_at.
  - apply is_error_row_at.
Qed.

(** X10. The counts of the report, read off the replies of the run: the
    total is the number of requests, the "Successful responses" count the
    requests that got a response (whatever its status), the "Non-200
    responses" those whose response has another status than 200, and the
    "Errors/exceptions" the requests that raised a [RequestException] with a
    non-empty description. *)
Theorem report_of_run
    (w : World) (url : string) (duration_seconds timeout_seconds sleep_ms : Z)
    (fuel : nat) (rows : list Row) (printed : list line)
    (slow_threshold_ms : Q) :
  load_test fuel w url duration_seconds timeout_seconds sleep_ms
  = Returned rows printed ->
  let rep := fst (summarize rows slow_threshold_ms) in
  let requests := seq 1 (length rows) in
  total_requests rep = length requests
  /\ successful_responses rep
     = length (List.filter (responded w url timeout_seconds) requests)
  /\ non_200_responses rep
     = length (List.filter (responded_other_than_200 w url timeout_seconds) requests)
  /\ errors_exceptions rep
     = length (List.filter (failed_with_text w url timeout_seconds) requests).
Proof.
  intros H. cbv zeta. now apply report_of_run_counts with (fuel := fuel)
    (duration_seconds := duration_seconds) (sleep_ms := sleep_ms) (printed := printed).
Qed.

Lemma report_of_run_witness :
  let rows := [mkRow 1 "2024-01-01T00:00:00+00:00" (3000 # 5) (Py.Int 200) "";
               mkRow 2 "2024-01-01T00:00:00+00:00" (1000 # 10) (Py.Str "") "refused";
               mkRow 3 "2024-01-01T00:00:00+00:00" (1000 # 50) (Py.Int 404) ""] in
  let rep := fst (summarize rows 500) in
  let requests := seq 1 (length rows) in
  total_requests rep = length requests
  /\ successful_responses rep
     = length (List.filter (responded sample_world "http://h:8080/albums" 10) requests)
  /\ non_200_responses rep
     = length (List.filter
                 (responded_other_than_200 sample_world "http://h:8080/albums" 10)
                 requests)
  /\ errors_exceptions rep
     = length (List.filter
                 (failed_with_text sample_world "http://h:8080/albums" 10) requests).
Proof.
  eapply (report_of_run sample_world "http://h:8080/albums" 4 10 0 3).
  reflexivity.
Defined.






(** ** [str.replace] *)

Section Replace.

Lemma append_length (s t : string) :
  String.length (String.append s t) = String.length s + String.length t.
Proof. induction s as [|c s IH]; simpl; [reflexivity|now rewrite IH]. Qed.

Lemma append_empty_r (s : string) : String.append s EmptyString = s.
Proof.
  induction s as [|c s IH]; [reflexivity|].
  change (String c (String.append s EmptyString) = String c s). now f_equal.
Qed.

Lemma prefix_length (old s : string) :
  String.prefix old s = true -> String.length old <= String.length s.
Proof.
  revert s. induction old as [|a old IH]; intros s H; simpl; [lia|].
  destruct s as [|b s]; simpl in H; [discriminate|].
  destruct (Ascii.ascii_dec a b); [|discriminate].
  apply IH in H. simpl. lia.
Qed.

Variables (old new : string).

Lemma contains_cons c s :
  Str.contains old (String c s) = false ->
  String.prefix old (String c s) = false /\ Str.contains old s = false.
Proof. simpl Str.contains. intros H. now apply orb_false_elim in H. Qed.

(** Without an occurrence of [old], nothing is replaced. *)
Lemma replace_from_without s :
  Str.contains old s = false -> Str.replace_from old new 0 s = s.
Proof.
  induction s as [|c s IH]; intros H; [reflexivity|].
  apply contains_cons in H as [Hp Hc].
  cbn [Str.replace_from]. rewrite Hp. now rewrite IH.
Qed.

Lemma count_from_without s :
  Str.contains old s = false -> Str.count_from old 0 s = 0.
Proof.
  induction s as [|c s IH]; intros H; [reflexivity|].
  apply contains_cons in H as [Hp Hc].
  cbn [Str.count_from]. rewrite Hp. now apply IH.
Qed.

Hypothesis old_nonempty : 1 <= String.length old.

Lemma count_from_with s :
  Str.contains old s = true -> 1 <= Str.count_from old 0 s.
Proof.
  induction s as [|c s IH]; intros H.
  - destruct old; [simpl in old_nonempty; lia|discriminate H].
  - cbn [Str.count_from].
    destruct (String.prefix old (String c s)) eqn:Hp; [lia|].
    apply IH.
    change (String.prefix old (String c s) || Str.contains old s = true) in H.
    now rewrite Hp in H.
Qed.

(** Each replaced occurrence trades the length of [old] for that of
    [new]. *)
Lemma replace_from_length s : forall k,
  String.length (Str.replace_from old new k s)
  + Str.count_from old k s * String.length old + Nat.min k (String.length s)
  = String.length s + Str.count_from old k s * String.length new.
Proof.
  induction s as [|c s IH]; intros k.
  - simpl. lia.
  - destruct k as [|k].
    + cbn [Str.replace_from Str.count_from].
      destruct (String.prefix old (String c s)) eqn:Hp.
      * apply prefix_length in Hp. simpl in Hp.
        specialize (IH (String.length old - 1)).
        rewrite append_length. simpl String.length.
        rewrite Nat.min_l in IH by lia. lia.
      * specialize (IH 0). simpl String.length. simpl in IH |- *. lia.
    + specialize (IH k). cbn [Str.replace_from Str.count_from].
      simpl String.length. simpl Nat.min. lia.
Qed.

End Replace.

(** X13. The names that [plot] derives for the histogram and for the
    scatter plot are the same exactly when the given name has no ".png" in
    it: the two figures then go to one file. *)
Theorem figure_paths_collide (out_png : string) :
  hist_path out_png = scatter_path out_png
  <-> Str.contains ".png" out_png = false.
Proof.
  unfold hist_path, scatter_path, Str.replace. split.
  - intros E. destruct (Str.contains ".png" out_png) eqn:C; [|reflexivity].
    assert (Hlen : 1 <= String.length ".png") by (simpl; lia).
    apply (count_from_with ".png" Hlen) in C.
    pose proof (replace_from_length ".png" "_hist.png" Hlen out_png 0) as L1.
    pose proof (replace_from_length ".png" "_scatter.png" Hlen out_png 0) as L2.
    rewrite E in L1. simpl String.length in L1, L2. simpl Nat.min in L1, L2.
    lia.
  - intros C. now rewrite !replace_from_without.
Qed.

Lemma append_cons c (s t : string) :
  String.append (String c s) t = String c (String.append s t).
Proof. reflexivity. Qed.

Lemma append_nil (t : string) : String.append EmptyString t = t.
Proof. reflexivity. Qed.

(** An occurrence of ".png" that starts inside [x] lies inside [x]: it cannot
    run over into a ".png" that follows. *)
Lemma prefix_png_append (x : string) :
  x <> EmptyString ->
  String.prefix ".png" (String.append x ".png") = true ->
  String.prefix ".png" x = true.
Proof.
  intros Hx H.
  destruct x as [|a [|b [|c [|d x]]]]; [congruence|..];
    rewrite ?append_cons, ?append_nil in H;
    cbn [String.prefix] in H |- *; try exact H;
    repeat match type of H with
           | context [Ascii.ascii_dec ?u ?v] =>
               destruct (Ascii.ascii_dec u v); [subst|discriminate H]
           end.
  destruct x; reflexivity.
Qed.

Lemma replace_png_suffix (new stem : string) :
  Str.contains ".png" stem = false ->
  Str.replace ".png" new (String.append stem ".png") = String.append stem new.
Proof.
  unfold Str.replace. induction stem as [|c stem IH]; intros H.
  - simpl. apply append_empty_r.
  - apply contains_cons in H as [Hp Hc].
    change (String.append (String c stem) ".png")
      with (String c (String.append stem ".png")).
    cbn [Str.replace_from].
    destruct (String.prefix ".png" (String c (String.append stem ".png"))) eqn:E.
    + apply (prefix_png_append (String c stem)) in E; congruence.
    + rewrite IH by assumption. reflexivity.
Qed.

(** X14. For a name [stem ++ ".png"] whose stem has no ".png" in it, the
    histogram goes to [stem ++ "_hist.png"] and the scatter plot to
    [stem ++ "_scatter.png"]. *)
Theorem figure_paths_of_png_name (stem : string) :
  Str.contains ".png" stem = false ->
  hist_path (String.append stem ".png") = String.append stem "_hist.png"
  /\ scatter_path (String.append stem ".png") = String.append stem "_scatter.png".
Proof.
  intros H. unfold hist_path, scatter_path.
  split; now apply replace_png_suffix.
Qed.

Lemma figure_paths_of_png_name_witness :
  hist_path (String.append "plots" ".png") = String.append "plots" "_hist.png"
  /\ scatter_path (String.append "plots" ".png")
     = String.append "plots" "_scatter.png".
Proof.
  apply (figure_paths_of_png_name "plots"). reflexivity.
Defined.

(** ** [plot] *)

(** X17. Without a name ([None], or the empty string), [plot] writes no
    file and shows the histogram, then the scatter plot. *)
Theorem plot_shows_without_name (arr : list Q) (out_png : option string) (e : Env) :
  out_png = None \/ out_png = Some EmptyString ->
  plot arr out_png e
  = {| files := files e;
       shown := shown e ++ [Histogram arr 50; Scatter (seq 0 (length arr)) arr] |}.
Proof.
  intros [-> | ->]; unfold plot, show; simpl; now rewrite <- app_assoc.
Qed.

Lemma plot_shows_without_name_witness :
  plot [600; 20]%Q (Some EmptyString) (mkEnv ∅ [])
  = {| files := ∅;
       shown := [] ++ [Histogram [600; 20]%Q 50;
                       Scatter (seq 0 (length [600; 20]%Q)) [600; 20]%Q] |}.
Proof.
  apply (plot_shows_without_name [600; 20]%Q (Some EmptyString) (mkEnv ∅ [])).
  right. reflexivity.
Defined.

(** ** [main] *)



(** ** [load_test]: a failing [time.sleep] *)

(** X22. [time.sleep] is called outside the [try] statement: when it raises
    after request [n + 1] (for instance [OverflowError], for a [sleep_ms]
    beyond what the platform accepts), the call of [load_test] ends with that
    exception; the line of request [n + 1] has been printed, and the [n + 1]
    rows collected are not returned. *)
Theorem sleep_error_ends_the_run
    (w : World) (p : Faults.Platform) (url : string)
    (duration_seconds timeout_seconds sleep_ms : Z)
    (n fuel : nat) (exn : string) :
  Faults.starts p duration_seconds ->
  (forall k, 1 <= k <= S n ->
     before_deadline w (end_time_of w duration_seconds) k = true) ->
  only_request_exceptions w url timeout_seconds (S n) ->
  Faults.quiet p sleep_ms n ->
  Faults.print_error p (S n) = None ->
  Faults.sleep p (S n) sleep_ms = Some exn ->
  n < fuel ->
  Faults.load_test fuel w p url duration_seconds timeout_seconds sleep_ms
  = Raised exn (map (line_at w url timeout_seconds) (seq 1 (S n))).
Proof.
  intros Hs Hb Hr Hq Hp He Hf. rewrite faulty_start by assumption.
  rewrite seq_S, map_app.
  replace fuel with (n + S (fuel - S n)) by lia.
  rewrite faulty_loop_prefix.
  - rewrite faulty_loop_unfold. change (0 + n) with n.
    rewrite Hb, Hp, He by lia.
    destruct (session_get w (S n) url timeout_seconds) as [s|e|e] eqn:E;
      try reflexivity.
    destruct (Hr (S n) e); [lia|exact E].
  - intros k Hk. destruct (Hq k) as [Hpk Hsk]; [lia|].
    split; [apply Hb; lia|]. split; [intros e; apply Hr; lia|]. now split.
Qed.

Lemma sleep_error_ends_the_run_witness :
  Faults.load_test 3 sample_world Faults.cpython "http://h:8080/albums" 4 10 (10 ^ 13)
  = Raised "OverflowError"
      (map (line_at sample_world "http://h:8080/albums" 10) (seq 1 1)).
Proof.
  apply (sleep_error_ends_the_run sample_world Faults.cpython
           "http://h:8080/albums" 4 10 (10 ^ 13) 0 3 "OverflowError").
  - split; [discriminate|reflexivity].
  - intros k Hk. bounded_cases k.
  - intros k e Hk. bounded_cases k.
  - intros k Hk. lia.
  - reflexivity.
  - reflexivity.
  - lia.
Defined.
